(** * Attachment harvester: a shallow embedding of [attachment_downloader.py]
    and of its older copy, with the properties of the harvesting pipeline.

    Python values are modelled as follows.
    - [str] is [string]; a character is a code point below 256.
    - [int] is [Z] where the code computes with it, [nat] for loop indices.
    - A [dict] with a fixed set of keys is a record; a key that may be
      missing is an [option] field.
    - The file system is a finite map from path strings to nodes; a path
      is identified with its string (paths are taken as normalised).
    - [os.makedirs], [open(..., 'wb')] and [to_csv] succeed; a failed
      [os.rename] changes nothing.  The exceptions modelled are those of
      [fitz.open], [requests.get], the body stream, [os.rename] and the
      [IndexError] of [re.findall(...)[0]].
    - Library tables that are not part of the repository (the Unicode
      [isalnum] table, [mimetypes], [urllib.parse]), the network, the PDF
      parser and the outcome of [os.rename] are fields of an environment
      record [Env]. *)

From Stdlib Require Import ZArith Ascii String List.
From stdpp Require Import base tactics option list gmap strings pretty.

Local Open Scope string_scope.

(** ** Python strings *)

Module PyStr.

Fixpoint str_filter (f : ascii → bool) (s : string) : string :=
  match s with
  | EmptyString => EmptyString
  | String c s' => if f c then String c (str_filter f s') else str_filter f s'
  end.

Fixpoint str_map (f : ascii → ascii) (s : string) : string :=
  match s with
  | EmptyString => EmptyString
  | String c s' => String (f c) (str_map f s')
  end.

Fixpoint str_all (f : ascii → bool) (s : string) : bool :=
  match s with
  | EmptyString => true
  | String c s' => f c && str_all f s'
  end.

(** [c in s] for a one-character [c]. *)
Fixpoint char_in (c : ascii) (s : string) : bool :=
  match s with
  | EmptyString => false
  | String a s' => if Ascii.eqb c a then true else char_in c s'
  end.

Fixpoint take (n : nat) (s : string) : string :=
  match n, s with
  | S n', String c s' => String c (take n' s')
  | _, _ => EmptyString
  end.

Fixpoint drop (n : nat) (s : string) : string :=
  match n, s with
  | S n', String _ s' => drop n' s'
  | _, _ => s
  end.

(** [s[:k]]: a negative stop counts from the end. *)
Definition slice_to (k : Z) (s : string) : string :=
  if (0 <=? k)%Z then take (Z.to_nat k) s
  else take (Z.to_nat (Z.of_nat (String.length s) + k)) s.

(** [s.rfind(c)]: index of the last occurrence, [-1] when there is none. *)
Fixpoint rfind (c : ascii) (s : string) : Z :=
  match s with
  | EmptyString => (-1)%Z
  | String a s' =>
      let r := rfind c s' in
      if (0 <=? r)%Z then (r + 1)%Z
      else if Ascii.eqb a c then 0%Z else (-1)%Z
  end.

Definition startswith (s prefix : string) : bool := String.prefix prefix s.

Definition endswith (s suffix : string) : bool :=
  String.prefix (String.rev suffix) (String.rev s).

(** [sub in s] *)
Fixpoint contains (sub s : string) : bool :=
  String.prefix sub s ||
  match s with
  | EmptyString => false
  | String _ s' => contains sub s'
  end.

(** [str.lower] on code points below 256: [A-Z], and the Latin-1 capitals
    [0xC0-0xD6], [0xD8-0xDE]. *)
Definition lower_char (c : ascii) : ascii :=
  let n := N_of_ascii c in
  if ((65 <=? n) && (n <=? 90) || (192 <=? n) && (n <=? 214)
      || (216 <=? n) && (n <=? 222))%N
  then ascii_of_N (n + 32) else c.

Definition lower (s : string) : string := str_map lower_char s.

(** [str.isspace] on code points below 256. *)
Definition isspace (c : ascii) : bool :=
  let n := N_of_ascii c in
  ((9 <=? n) && (n <=? 13) || (28 <=? n) && (n <=? 32)
   || (n =? 133) || (n =? 160))%N.

Fixpoint lstrip (f : ascii → bool) (s : string) : string :=
  match s with
  | EmptyString => EmptyString
  | String c s' => if f c then lstrip f s' else s
  end.

Definition rstrip (f : ascii → bool) (s : string) : string :=
  String.rev (lstrip f (String.rev s)).

(** [s.strip()] and [s.strip(chars)] *)
Definition strip (f : ascii → bool) (s : string) : string :=
  rstrip f (lstrip f s).

(** [s.split(c)[0]] *)
Fixpoint split_head (c : ascii) (s : string) : string :=
  match s with
  | EmptyString => EmptyString
  | String a s' => if Ascii.eqb a c then EmptyString else String a (split_head c s')
  end.

(** Truthiness of a [str]. *)
Definition truthy (s : string) : bool := negb (String.eqb s "").

Definition len (s : string) : Z := Z.of_nat (String.length s).

End PyStr.

(** ** [os.path] (the POSIX flavour) *)

Module OsPath.
Import PyStr.

(** [genericpath._splitext] with [sep = "/"], no [altsep], [extsep = "."]:
    the extension starts at the last dot of the last component, unless
    only dots precede it there. *)
Definition splitext (p : string) : string * string :=
  let sepIndex := rfind "/" p in
  let dotIndex := rfind "." p in
  if (sepIndex <? dotIndex)%Z then
    let filenameIndex := Z.to_nat (sepIndex + 1) in
    let d := Z.to_nat dotIndex in
    if str_all (Ascii.eqb ".") (take (d - filenameIndex) (drop filenameIndex p))
    then (p, "")
    else (take d p, drop d p)
  else (p, "").

(** [posixpath.join(a, b)] *)
Definition join (a b : string) : string :=
  if startswith b "/" then b
  else if negb (truthy a) || endswith a "/" then a ++ b
  else a ++ "/" ++ b.

(** [posixpath.basename(p)] *)
Definition basename (p : string) : string :=
  drop (Z.to_nat (rfind "/" p + 1)) p.

End OsPath.

(** ** [sanitize_filename] (identical in both files) *)

Module Sanitize.
Import PyStr OsPath.

Definition ascii_letters : string :=
  "abcdefghijklmnopqrstuvwxyzABCDEFGHIJKLMNOPQRSTUVWXYZ".
Definition digits : string := "0123456789".

(** ["-_.() %s%s" % (string.ascii_letters, string.digits)] *)
Definition valid_chars : string := "-_.() " ++ ascii_letters ++ digits.

Definition sanitize_filename (filename : string) (max_length : Z) : string :=
  let filename := str_filter (λ c, char_in c valid_chars) filename in
  let '(name, ext) := splitext filename in
  if (max_length <? len filename)%Z
  then slice_to (max_length - len ext) name ++ ext
  else filename.

End Sanitize.

(** ** Data model *)

Module Model.

(** A node of the file system: a directory, or a file with its bytes. *)
Inductive Node :=
| Dir
| File (content : string).

Abbreviation FS := (gmap string Node).

(** The world the scripts act on: the file system and the GET requests
    issued so far, oldest first. *)
Record World := mkWorld {
  fs : FS;
  requests : list string;
}.

(** What [requests.get(link, stream=True, timeout=15)] gives back: the
    headers the code reads, and the body as the chunks [iter_content]
    yields, possibly cut short by an exception. *)
Record Response := mkResponse {
  status_code : Z;
  content_disposition : option string;
  content_type : option string;
  body_chunks : list string;
  body_error : option string;
}.

Inductive GetResult :=
| GetRaises (message : string)
| GetResponse (r : Response).

(** A link dictionary of [page.get_links()]: only the ["uri"] key is read. *)
Record Link := mkLink { uri : option string }.

Abbreviation Page := (list Link).
Abbreviation Document := (list Page).

(** An entry of [failed_downloads]; the last two keys are added by
    [process_pdf_folder]. *)
Record FailureRecord := mkFailure {
  link : string;
  failure_status : option Z;
  error : string;
  pdf_file : option string;
  attachments_folder : option string;
}.

Record SummaryRow := mkSummary {
  file_number : Z;
  file_name : string;
  attachments_count : Z;
}.

(** A table handed to [DataFrame.to_csv]. *)
Inductive Csv :=
| SummaryCsv (rows : list SummaryRow)
| FailedCsv (rows : list FailureRecord).

(** Everything the scripts take from outside the repository. *)
Record Env := mkEnv {
  (** [str.isalnum] of one character (Unicode table) *)
  isalnum : ascii → bool;
  (** [mimetypes.guess_extension] *)
  guess_extension : string → option string;
  (** [urllib.parse.urlparse(link).path] *)
  urlparse_path : string → string;
  (** [urllib.parse.unquote] *)
  unquote : string → string;
  (** the answer to the [n]-th GET of the run, sent to the given link *)
  http_get : nat → string → GetResult;
  (** [glob.glob(pattern)] *)
  glob : string → list string;
  (** [fitz.open(path)]: an exception message or the parsed document *)
  fitz_open : string → string + Document;
  (** [os.rename(src, dst)]: [Some message] when it raises *)
  rename_error : FS → string → string → option string;
}.

#[global] Instance Node_eq_dec : EqDecision Node.
Proof. solve_decision. Defined.
#[global] Instance FailureRecord_eq_dec : EqDecision FailureRecord.
Proof. solve_decision. Defined.

End Model.

(** ** File-system operations *)

Module Os.
Import PyStr OsPath Model.

(** [os.path.exists] *)
Definition path_exists (m : FS) (p : string) : bool :=
  bool_decide (is_Some (m !! p)).

(** [os.path.isdir] *)
Definition isdir (m : FS) (p : string) : bool :=
  bool_decide (m !! p = Some Dir).

(** [os.makedirs]: parent directories are not tracked. *)
Definition makedirs (p : string) (m : FS) : FS := <[p := Dir]> m.

(** [open(p, 'wb')] followed by the writes. *)
Definition write_file (p : string) (content : string) (m : FS) : FS :=
  <[p := File content]> m.

Definition rename_key (src dst p : string) : string :=
  if String.eqb p src then dst
  else if startswith p (src ++ "/") then dst ++ drop (String.length src) p
  else p.

(** The effect of a successful [os.rename(src, dst)] of a directory: the
    directory and everything below it move. *)
Definition rename (src dst : string) (m : FS) : FS :=
  list_to_map (prod_map (rename_key src dst) id <$> map_to_list m).

(** The loop
    [while os.path.exists(file_path):
         file_path = f"{base}_{counter}{ext}"; counter += 1]
    with a bound on the number of rounds. *)
Fixpoint probe (m : FS) (base ext : string) (fuel counter : nat)
    (file_path : string) {struct fuel} : option string :=
  if path_exists m file_path then
    match fuel with
    | O => None
    | S fuel' =>
        probe m base ext fuel' (S counter) (base ++ "_" ++ pretty counter ++ ext)
    end
  else Some file_path.

(** One more round than the file system has entries always suffices
    ([probe_total] below), so the fallback is never taken. *)
Definition free_path (m : FS) (base ext file_path : string) : string :=
  default file_path (probe m base ext (S (size m)) 1 file_path).

End Os.

(** ** [attachment_downloader.py] *)

Module AttachmentDownloader.
Import PyStr OsPath Sanitize Model Os.

Section WithEnv.
Variable E : Env.

(** The inner loop of [extract_hyperlinks_from_pdf]:
    [for link in page.get_links(): uri = link.get("uri"); if uri: ...] *)
Definition page_hyperlinks (links : list string) (page : Page) : list string :=
  fold_left
    (λ (links : list string) l,
       match uri l with
       | Some u => if truthy u then (links ++ [u])%list else links
       | None => links
       end)
    page links.

Definition extract_hyperlinks_from_pdf (pdf_path : string)
    : string + list string :=
  match fitz_open E pdf_path with
  | inl e => inl e
  | inr doc => inr (fold_left page_hyperlinks doc [])
  end.

(** [re.findall("filename=(.+)", s)], first match: the leftmost
    ["filename="] followed by a character other than a newline, and
    the rest of that line. *)
Fixpoint prefix_rest (p s : string) : option string :=
  match p, s with
  | EmptyString, _ => Some s
  | String a p', String b s' => if Ascii.eqb a b then prefix_rest p' s' else None
  | String _ _, EmptyString => None
  end.

Definition newline : ascii := ascii_of_nat 10.
Definition dquote : ascii := ascii_of_nat 34.

Fixpoint findall_filename (s : string) : option string :=
  let here :=
    match prefix_rest "filename=" s with
    | Some (String c rest) =>
        if Ascii.eqb c newline then None
        else Some (String c (split_head newline rest))
    | _ => None
    end in
  match here with
  | Some m => Some m
  | None =>
      match s with
      | EmptyString => None
      | String _ s' => findall_filename s'
      end
  end.

(** Lines 100-105: the name given by [Content-Disposition], if any.
    [inl] is the [IndexError] of [re.findall(...)[0]]. *)
Definition disposition_filename (r : Response) : string + option string :=
  match content_disposition r with
  | Some cd =>
      if truthy cd && contains "filename=" cd then
        match findall_filename cd with
        | Some m => inr (Some (strip (Ascii.eqb dquote) m))
        | None => inl "list index out of range"
        end
      else inr None
  | None => inr None
  end.

(** Lines 106-118: the fallbacks when no name came from the header. *)
Definition fallback_filename (i : nat) (lnk : string) (r : Response) : string :=
  let content_type :=
    strip isspace (split_head ";" (default "" (content_type r))) in
  let ext :=
    if truthy content_type then
      match guess_extension E content_type with
      | Some guessed_ext => if truthy guessed_ext then guessed_ext else ""
      | None => ""
      end
    else "" in
  let url_filename := unquote E (basename (urlparse_path E lnk)) in
  if truthy url_filename && contains "." url_filename then url_filename
  else "file_" ++ pretty i ++ ext.

Definition resolve_filename (i : nat) (lnk : string) (r : Response)
    : string + string :=
  match disposition_filename r with
  | inl e => inl e
  | inr (Some filename) =>
      if truthy filename then inr filename else inr (fallback_filename i lnk r)
  | inr None => inr (fallback_filename i lnk r)
  end.

(** Line 119 *)
Definition keep_safe (filename : string) : string :=
  str_filter (λ c, isalnum E c || char_in c "._- ") filename.

(** Lines 120-125: the path the body is written to. *)
Definition target_path (m : FS) (download_folder filename : string) : string :=
  let file_path := join download_folder (keep_safe filename) in
  let '(base, ext) := splitext file_path in
  free_path m base ext file_path.

(** Lines 119-128. The file holds whatever chunks arrived; the result
    is the exception that cut the body short, if any. *)
Definition save_response (download_folder filename : string) (r : Response)
    (w : World) : World * option string :=
  let file_path := target_path (fs w) download_folder filename in
  let content := fold_left String.append (body_chunks r) "" in
  (mkWorld (write_file file_path content (fs w)) (requests w), body_error r).

Definition failure (lnk : string) (st : option Z) (err : string) : FailureRecord :=
  mkFailure lnk st err None None.

(** Line 98: the request is logged, and answered by the environment. *)
Definition get (lnk : string) (w : World) : World * GetResult :=
  (mkWorld (fs w) (requests w ++ [lnk])%list, http_get E (length (requests w)) lnk).

(** Lines 99-129, shared word for word with the older copy. *)
Definition on_status_200 (download_folder : string) (i : nat) (lnk : string)
    (r : Response) (w : World) (failed_downloads : list FailureRecord)
    : World * list FailureRecord :=
  match resolve_filename i lnk r with
  | inl e => (w, (failed_downloads ++ [failure lnk None e])%list)
  | inr filename =>
      match save_response download_folder filename r w with
      | (w', Some e) => (w', (failed_downloads ++ [failure lnk None e])%list)
      | (w', None) => (w', failed_downloads)
      end
  end.

(** The body of the [for i, link in enumerate(links)] loop. *)
Definition download_link (download_folder : string) (i : nat) (lnk : string)
    (st : World * list FailureRecord) : World * list FailureRecord :=
  let '(w, failed_downloads) := st in
  let lower_link := lower lnk in
  if startswith lower_link "mailto:" then st
  else if negb (startswith lower_link "http://" || startswith lower_link "https://")
  then st
  else
    match get lnk w with
    | (w, GetRaises e) => (w, (failed_downloads ++ [failure lnk None e])%list)
    | (w, GetResponse response) =>
        if (status_code response =? 200)%Z then
          on_status_200 download_folder i lnk response w failed_downloads
        else
          (w, (failed_downloads ++
                 [failure lnk (Some (status_code response))
                    ("Status " ++ pretty (status_code response))])%list)
    end.

Fixpoint download_loop (download_folder : string) (i : nat) (links : list string)
    (st : World * list FailureRecord) : World * list FailureRecord :=
  match links with
  | [] => st
  | lnk :: links' =>
      download_loop download_folder (S i) links'
        (download_link download_folder i lnk st)
  end.

Definition ensure_folder (download_folder : string) (w : World) : World :=
  if path_exists (fs w) download_folder then w
  else mkWorld (makedirs download_folder (fs w)) (requests w).

Definition download_files_from_links (links : list string)
    (download_folder : string) (w : World) : World * list FailureRecord :=
  download_loop download_folder 0 links (ensure_folder download_folder w, []).

(** *** [process_pdf_folder] *)

Record Run := mkRun {
  world : World;
  file_summary : list SummaryRow;
  all_failed_downloads : list FailureRecord;
  (** the [to_csv] calls, in order: path and table *)
  written : list (string * Csv);
}.

(** [f['pdf_file'] = ...; f['attachments_folder'] = ...] for every [f]
    of [failed]. *)
Definition tag (pdf_basename folder : string) (failed : list FailureRecord)
    : list FailureRecord :=
  (λ f, mkFailure (link f) (failure_status f) (error f)
          (Some pdf_basename) (Some folder)) <$> failed.

(** [f"pdf_{i + 1}"] *)
Definition positional_name (i : nat) : string := "pdf_" ++ pretty (i + 1)%nat.

(** Lines 191-199: the folder the working subfolder is to be renamed to. *)
Definition rename_target (m : FS) (destination_folder pdf_basename : string)
    (i : nat) : string :=
  let pdf_name_no_ext := (splitext pdf_basename).1 in
  let sanitized := sanitize_filename pdf_name_no_ext 80 in
  let safe_name := if truthy sanitized then sanitized else positional_name i in
  let target_folder := join destination_folder safe_name in
  free_path m target_folder "" target_folder.

(** Lines 188-220: rename the working subfolder and complete the failure
    records. *)
Definition organize (destination_folder pdf_basename : string) (i : nat)
    (attachments_subfolder : string) (failed : list FailureRecord) (w : World)
    : World * list FailureRecord :=
  if isdir (fs w) attachments_subfolder then
    let target_folder := rename_target (fs w) destination_folder pdf_basename i in
    if bool_decide (attachments_subfolder ≠ target_folder) then
      match rename_error E (fs w) attachments_subfolder target_folder with
      | Some _ =>
          (* except: fall back to the original subfolder path *)
          (w, tag pdf_basename attachments_subfolder failed)
      | None =>
          (mkWorld (rename attachments_subfolder target_folder (fs w)) (requests w),
           tag pdf_basename target_folder failed)
      end
    else (w, tag pdf_basename target_folder failed)
  else
    (w, tag pdf_basename (join destination_folder (positional_name i)) failed).

Definition add_summary (i : nat) (pdf_basename : string) (count : Z)
    (rows : list SummaryRow) : list SummaryRow :=
  (rows ++ [mkSummary (Z.of_nat i + 1) pdf_basename count])%list.

(** The body of the [for i, pdf_file in enumerate(pdf_files)] loop. *)
Definition process_pdf (destination_folder : string) (i : nat) (pdf_file : string)
    (st : Run) : Run :=
  if negb (path_exists (fs (world st)) pdf_file) then st
  else
    let pdf_basename := basename pdf_file in
    match extract_hyperlinks_from_pdf pdf_file with
    | inr hyperlinks =>
        match hyperlinks with
        | _ :: _ =>
            let attachments_subfolder :=
              join destination_folder (positional_name i) in
            let '(w, failed) :=
              download_files_from_links hyperlinks attachments_subfolder (world st) in
            let successful_downloads :=
              (Z.of_nat (length hyperlinks) - Z.of_nat (length failed))%Z in
            let '(w, failed) :=
              organize destination_folder pdf_basename i attachments_subfolder
                failed w in
            mkRun w
              (add_summary i pdf_basename successful_downloads (file_summary st))
              (all_failed_downloads st ++ failed)%list
              (written st)
        | [] =>
            mkRun (world st)
              (add_summary i pdf_basename 0 (file_summary st))
              (all_failed_downloads st)
              (written st)
        end
    | inl _ =>
        mkRun (world st)
          (add_summary i pdf_basename 0 (file_summary st))
          (all_failed_downloads st)
          (written st)
    end.

Fixpoint process_loop (destination_folder : string) (i : nat)
    (pdf_files : list string) (st : Run) : Run :=
  match pdf_files with
  | [] => st
  | pdf_file :: pdf_files' =>
      process_loop destination_folder (S i) pdf_files'
        (process_pdf destination_folder i pdf_file st)
  end.

(** Lines 240-256 *)
Definition write_reports (destination_folder : string) (st : Run) : Run :=
  let summary_csv := join destination_folder "file_summary.csv" in
  let written1 :=
    (written st ++ [(summary_csv, SummaryCsv (file_summary st))])%list in
  match all_failed_downloads st with
  | _ :: _ =>
      let failed_csv := join destination_folder "failed_downloads.csv" in
      mkRun (world st) (file_summary st) (all_failed_downloads st)
        (written1 ++ [(failed_csv, FailedCsv (all_failed_downloads st))])%list
  | [] =>
      mkRun (world st) (file_summary st) (all_failed_downloads st) written1
  end.

(** [os.makedirs(destination_folder, exist_ok=True)] *)
Definition ensure_destination (destination_folder : string) (w : World) : World :=
  if path_exists (fs w) destination_folder then w
  else mkWorld (makedirs destination_folder (fs w)) (requests w).

Definition process_pdf_folder (source_folder destination_folder : string)
    (w : World) : Run :=
  let w := ensure_destination destination_folder w in
  let pdf_files := glob E (join source_folder "*.pdf") in
  match pdf_files with
  | [] => mkRun w [] [] []
  | _ :: _ =>
      write_reports destination_folder
        (process_loop destination_folder 0 pdf_files (mkRun w [] [] []))
  end.

End WithEnv.

End AttachmentDownloader.

(** ** The older copy ([attachment_downloader copy.py]) *)

Module AttachmentDownloaderCopy.
Import PyStr OsPath Model Os.

Section WithEnv.
Variable E : Env.

(** Lines 45-75 of the copy are the text of lines 99-129 of
    [attachment_downloader.py]; only the [else] branch differs. *)
Definition download_link (download_folder : string) (i : nat) (lnk : string)
    (st : World * list FailureRecord) : World * list FailureRecord :=
  let '(w, failed_downloads) := st in
  let lower_link := lower lnk in
  if startswith lower_link "mailto:" then st
  else if negb (startswith lower_link "http://" || startswith lower_link "https://")
  then st
  else
    match AttachmentDownloader.get E lnk w with
    | (w, GetRaises e) =>
        (w, (failed_downloads ++ [AttachmentDownloader.failure lnk None e])%list)
    | (w, GetResponse response) =>
        if (status_code response =? 200)%Z then
          AttachmentDownloader.on_status_200 E download_folder i lnk response w
            failed_downloads
        else if (status_code response =? 401)%Z then
          (w, failed_downloads)
        else
          (w, (failed_downloads ++
                 [AttachmentDownloader.failure lnk (Some (status_code response))
                    ("Status " ++ pretty (status_code response))])%list)
    end.

Fixpoint download_loop (download_folder : string) (i : nat) (links : list string)
    (st : World * list FailureRecord) : World * list FailureRecord :=
  match links with
  | [] => st
  | lnk :: links' =>
      download_loop download_folder (S i) links'
        (download_link download_folder i lnk st)
  end.

Definition download_files_from_links (links : list string)
    (download_folder : string) (w : World) : World * list FailureRecord :=
  download_loop download_folder 0 links
    (AttachmentDownloader.ensure_folder download_folder w, []).

(** *** [process_pdf_folder] of the copy: one common folder, no summary *)

(** A row of the copy's [failed_downloads.csv]: the frame is built with
    [columns=['pdf_file', 'attachments_folder', 'link']], so only these
    keys of a record reach the file. *)
Record Row := mkRow {
  row_pdf_file : option string;
  row_attachments_folder : option string;
  row_link : string;
}.

Record Run := mkRun {
  world : World;
  all_failed_downloads : list FailureRecord;
  (** the [to_csv] calls, in order: path and rows *)
  written : list (string * list Row);
}.

Definition to_row (f : FailureRecord) : Row :=
  mkRow (pdf_file f) (attachments_folder f) (link f).

(** The body of the [for pdf_file in pdf_files] loop (lines 116-135).  The
    extractor of the copy is the text of the current one. *)
Definition process_pdf (destination_folder pdf_file : string) (st : Run) : Run :=
  if negb (path_exists (fs (world st)) pdf_file) then st
  else
    let pdf_basename := basename pdf_file in
    match AttachmentDownloader.extract_hyperlinks_from_pdf E pdf_file with
    | inr hyperlinks =>
        match hyperlinks with
        | _ :: _ =>
            let '(w, failed) :=
              download_files_from_links hyperlinks destination_folder (world st) in
            mkRun w
              (all_failed_downloads st ++
                 AttachmentDownloader.tag pdf_basename destination_folder failed)%list
              (written st)
        | [] => st
        end
    | inl _ => st
    end.

Definition process_loop (destination_folder : string) (pdf_files : list string)
    (st : Run) : Run :=
  fold_left (λ st pdf_file, process_pdf destination_folder pdf_file st) pdf_files st.

Definition process_pdf_folder (source_folder destination_folder : string)
    (w : World) : Run :=
  let w := AttachmentDownloader.ensure_destination destination_folder w in
  let pdf_files := glob E (join source_folder "*.pdf") in
  match pdf_files with
  | [] => mkRun w [] []
  | _ :: _ =>
      let st := process_loop destination_folder pdf_files (mkRun w [] []) in
      match all_failed_downloads st with
      | _ :: _ =>
          let failed_csv := join destination_folder "failed_downloads.csv" in
          mkRun (world st) (all_failed_downloads st)
            (written st ++ [(failed_csv, to_row <$> all_failed_downloads st)])%list
      | [] => st
      end
  end.

End WithEnv.

End AttachmentDownloaderCopy.

(** ** The console mirror [_Tee] of [attachment_downloader.py] *)

Module Logging.

(** A stream as [_Tee] sees it: what it has received, whether its [write]
    takes a given piece of data or raises, and its [isatty]: no such
    attribute, a call that raises, or an answer. *)
Record Stream := mkStream {
  received : string;
  accepts : string → bool;
  isatty_attr : option (string + bool);
}.

(** [s.write(data)]; [None] when it raises. *)
Definition stream_write (data : string) (s : Stream) : option Stream :=
  if accepts s data
  then Some (mkStream (received s ++ data) (accepts s) (isatty_attr s))
  else None.

(** [_Tee.write]: [try: s.write(data) except Exception: pass] for each
    stream. *)
Definition write (data : string) (streams : list Stream) : list Stream :=
  (λ s, default s (stream_write data s)) <$> streams.

(** [any(getattr(s, 'isatty', lambda: False)() for s in streams)]; [None]
    when a call raises before a stream answered [True]. *)
Fixpoint any_isatty (streams : list Stream) : option bool :=
  match streams with
  | [] => Some false
  | s :: streams' =>
      match isatty_attr s with
      | None => any_isatty streams'
      | Some (inl _) => None
      | Some (inr true) => Some true
      | Some (inr false) => any_isatty streams'
      end
  end.

(** [_Tee.isatty]: [False] when the scan raises. *)
Definition isatty (streams : list Stream) : bool :=
  default false (any_isatty streams).

End Logging.

(** * Specification-level notions *)

Module Spec.
Import PyStr OsPath Sanitize Model Os.

(** The characters a sanitized file name may hold: ASCII letters, digits,
    and [-], [_], [.], [(], [)], space. *)
Definition allowed_char (c : ascii) : bool :=
  let n := N_of_ascii c in
  ((48 <=? n) && (n <=? 57) || (65 <=? n) && (n <=? 90)
   || (97 <=? n) && (n <=? 122)
   || (n =? 45) || (n =? 95) || (n =? 46) || (n =? 40) || (n =? 41) || (n =? 32))%N.

(** The URI target of a link annotation: present and not empty. *)
Definition uri_target (l : Link) : option string :=
  match uri l with
  | Some u => if truthy u then Some u else None
  | None => None
  end.

Definition has_uri_target (l : Link) : bool :=
  match uri_target l with Some _ => true | None => false end.

(** The URI targets of a document: its annotations taken page by page and,
    within a page, in annotation order, keeping those with a target. *)
Definition uri_targets (doc : Document) : list string :=
  omap uri_target (concat doc).

(** The terminal status of one link (the DownloadOutcome of the data model). *)
Inductive DownloadOutcome :=
| SkippedMailto
| SkippedNonHttp
| Success
| Failed (status : option Z) (err : string).

(** Links that are not fetched. *)
Definition skip_reason (lnk : string) : option DownloadOutcome :=
  let l := lower lnk in
  if startswith l "mailto:" then Some SkippedMailto
  else if startswith l "http://" || startswith l "https://" then None
  else Some SkippedNonHttp.

Definition skipped (o : DownloadOutcome) : bool :=
  match o with
  | SkippedMailto | SkippedNonHttp => true
  | _ => false
  end.

Definition is_success (o : DownloadOutcome) : bool :=
  match o with Success => true | _ => false end.

Definition is_failed (o : DownloadOutcome) : bool :=
  match o with Failed _ _ => true | _ => false end.

Section WithEnv.
Variable E : Env.

(** The outcome of an attempted download, read off the answer to its GET:
    success is status 200 with a body that arrived whole. *)
Definition response_outcome (res : GetResult) : DownloadOutcome :=
  match res with
  | GetRaises e => Failed None e
  | GetResponse r =>
      if (status_code r =? 200)%Z then
        match AttachmentDownloader.disposition_filename r with
        | inl e => Failed None e
        | inr _ =>
            match body_error r with
            | Some e => Failed None e
            | None => Success
            end
        end
      else Failed (Some (status_code r)) ("Status " ++ pretty (status_code r))
  end.

(** The outcome of one link when [n] GETs were issued before it. *)
Definition link_outcome (n : nat) (lnk : string) : DownloadOutcome :=
  match skip_reason lnk with
  | Some o => o
  | None => response_outcome (http_get E n lnk)
  end.

(** Exactly one outcome per link, in order; [n] GETs were issued before. *)
Fixpoint outcomes (n : nat) (links : list string)
    : list (string * DownloadOutcome) :=
  match links with
  | [] => []
  | lnk :: links' =>
      let o := link_outcome n lnk in
      (lnk, o) :: outcomes (if skipped o then n else S n) links'
  end.

End WithEnv.

(** The FailureRecord of an outcome, if it is a failure. *)
Definition failure_of (x : string * DownloadOutcome) : option FailureRecord :=
  match x.2 with
  | Failed st err => Some (AttachmentDownloader.failure x.1 st err)
  | _ => None
  end.

(** The policy of the older copy: a 401 is not a failure to report. *)
Definition failure_of_copy (x : string * DownloadOutcome) : option FailureRecord :=
  match x.2 with
  | Failed st err =>
      if bool_decide (st = Some 401%Z) then None
      else Some (AttachmentDownloader.failure x.1 st err)
  | _ => None
  end.

Definition attempted (x : string * DownloadOutcome) : bool := negb (skipped x.2).

(** Failure records other than those of a 401 answer. *)
Definition not_401 (f : FailureRecord) : bool :=
  negb (bool_decide (failure_status f = Some 401%Z)).

(** The directory part [posixpath.join] puts in front of a component. *)
Definition join_prefix (a : string) : string :=
  if negb (truthy a) || endswith a "/" then a else a ++ "/".

(** The [k]-th candidate of the collision loop. *)
Definition candidate (base ext : string) (k : nat) : string :=
  base ++ "_" ++ pretty k ++ ext.

End Spec.

(** * A concrete run, used to exercise the statements below *)

Module Scenario.
Import PyStr OsPath Model Os.

Definition ascii_alnum (c : ascii) : bool :=
  let n := N_of_ascii c in
  ((48 <=? n) && (n <=? 57) || (65 <=? n) && (n <=? 90)
   || (97 <=? n) && (n <=? 122))%N.

Definition mail : string := "mailto:x@y.com".
Definition good : string := "https://good.example/file.txt".
Definition bad : string := "https://bad.example/nofile".
Definition locked : string := "https://intranet.example/plan.pdf".

Definition answer (st : Z) (chunks : list string) : GetResult :=
  GetResponse (mkResponse st None None chunks None).

(** [A.pdf] holds a mail link, a link answered 200 with body [hello] and a
    link answered 404; [B.pdf] cannot be opened; [C.pdf] has a single
    annotation, without URI. *)
Definition env : Env := {|
  isalnum := ascii_alnum;
  guess_extension := λ _, None;
  urlparse_path := λ l,
    if String.eqb l good then "/file.txt"
    else if String.eqb l locked then "/plan.pdf" else "/nofile";
  unquote := λ s, s;
  http_get := λ _ l,
    if String.eqb l good then answer 200 ["hel"; "lo"]
    else if String.eqb l bad then answer 404 []
    else if String.eqb l locked then answer 401 []
    else GetRaises "Read timed out.";
  glob := λ pattern,
    if String.eqb pattern "Submittals/*.pdf"
    then ["Submittals/A.pdf"; "Submittals/B.pdf"; "Submittals/C.pdf"]
    else [];
  fitz_open := λ p,
    if String.eqb p "Submittals/A.pdf"
    then inr [[mkLink (Some mail); mkLink None; mkLink (Some good)];
              [mkLink (Some bad)]]
    else if String.eqb p "Submittals/C.pdf" then inr [[mkLink None]]
    else inl "cannot open broken document";
  rename_error := λ _ _ _, None;
|}.

(** The same, on a file system that refuses every rename. *)
Definition env_no_rename : Env := {|
  isalnum := isalnum env;
  guess_extension := guess_extension env;
  urlparse_path := urlparse_path env;
  unquote := unquote env;
  http_get := http_get env;
  glob := glob env;
  fitz_open := fitz_open env;
  rename_error := λ _ _ _, Some "Permission denied";
|}.

Definition start : World :=
  mkWorld
    (<["Submittals/A.pdf" := File "%PDF-A"]>
       (<["Submittals/B.pdf" := File "broken"]>
          (<["Submittals/C.pdf" := File "%PDF-C"]> ∅)))
    [].

End Scenario.

(** * Properties *)

(** ** Facts about the string and path functions *)

Module StrFacts.
Import PyStr OsPath.

Lemma app_cons c s t : String c s ++ t = String c (s ++ t).
Proof. reflexivity. Qed.

Lemma app_empty_l s : "" ++ s = s.
Proof. reflexivity. Qed.

Lemma app_empty_r s : s ++ "" = s.
Proof. induction s as [|c s IH]; [done | by rewrite app_cons, IH]. Qed.

Lemma str_length_app s t : String.length (s ++ t) = String.length s + String.length t.
Proof.
  induction s as [|c s IH]; [done|].
  rewrite app_cons. simpl. by rewrite IH.
Qed.

Lemma str_take_drop n s : take n s ++ drop n s = s.
Proof.
  revert s; induction n as [|n IH]; intros [|c s]; try done.
  cbn [take drop]. by rewrite app_cons, IH.
Qed.

Lemma str_length_take n s : String.length (take n s) = Nat.min n (String.length s).
Proof.
  revert s; induction n as [|n IH]; intros [|c s]; try done.
  cbn [take String.length Nat.min]. by rewrite IH.
Qed.

Lemma str_all_app f s t : str_all f (s ++ t) = str_all f s && str_all f t.
Proof.
  induction s as [|c s IH]; [done|].
  rewrite app_cons. simpl. rewrite IH. by destruct (f c).
Qed.

Lemma str_all_ext f g s : (∀ c, f c = g c) → str_all f s = str_all g s.
Proof. intros Hfg. induction s as [|c s IH]; simpl; [done | by rewrite Hfg, IH]. Qed.

Lemma str_all_filter f s : str_all f (str_filter f s) = true.
Proof.
  induction s as [|c s IH]; simpl; [done|].
  destruct (f c) eqn:Hc; simpl; [by rewrite Hc | done].
Qed.

Lemma str_all_take f n s : str_all f s = true → str_all f (take n s) = true.
Proof.
  revert s; induction n as [|n IH]; intros [|c s]; simpl; try done.
  intros [-> Hs]%andb_prop. simpl. by apply IH.
Qed.

Lemma length_filter_le f s :
  (String.length (str_filter f s) ≤ String.length s)%nat.
Proof.
  induction s as [|c s IH]; simpl; [done|].
  destruct (f c); simpl; lia.
Qed.

Lemma splitext_app p : (splitext p).1 ++ (splitext p).2 = p.
Proof.
  unfold splitext.
  destruct (_ <? _)%Z; [destruct (str_all _ _)|]; simpl;
    auto using app_empty_r, str_take_drop.
Qed.

End StrFacts.

(** ** [sanitize_filename] *)

Module SanitizeFacts.
Import PyStr OsPath Sanitize Spec StrFacts.

Lemma char_in_valid_chars c : char_in c valid_chars = allowed_char c.
Proof. by destruct c as [[] [] [] [] [] [] [] []]. Qed.

Lemma slice_to_nonneg k s : (0 ≤ k)%Z → slice_to k s = take (Z.to_nat k) s.
Proof. intros Hk. unfold slice_to. by rewrite (proj2 (Z.leb_le 0 k) Hk). Qed.

(** C10, as amended: with [ext] the extension that [os.path.splitext] finds
    once the characters outside the allowed set are removed from the input,
    and [ext] no longer than [max_length], the result is no longer than
    [max_length], ends with [ext], and holds allowed characters only. *)
Theorem sanitize_filename_bounded (filename : string) (max_length : Z) :
  let kept := str_filter (λ c, char_in c valid_chars) filename in
  let ext := (splitext kept).2 in
  (len ext ≤ max_length)%Z →
  let r := sanitize_filename filename max_length in
  (len r ≤ max_length)%Z ∧ (∃ stem, r = stem ++ ext) ∧ str_all allowed_char r = true.
Proof.
  intros kept ext Hext r.
  assert (Hall : str_all allowed_char kept = true).
  { unfold kept.
    rewrite <- (str_all_filter (λ c, char_in c valid_chars) filename).
    apply str_all_ext. intros c. by rewrite char_in_valid_chars. }
  pose proof (splitext_app kept) as Happ.
  unfold r, sanitize_filename. fold kept.
  destruct (splitext kept) as [name ext0] eqn:Hsplit.
  simpl in Happ. subst ext. simpl in Hext.
  destruct (max_length <? len kept)%Z eqn:Hlong.
  - rewrite slice_to_nonneg by (unfold len in *; lia).
    rewrite <- Happ, str_all_app in Hall.
    apply andb_prop in Hall as [Hname Hext0].
    split; [|split].
    + unfold len in *. rewrite str_length_app, str_length_take. lia.
    + simpl. eauto.
    + rewrite str_all_app, Hext0, str_all_take; done.
  - apply Z.ltb_ge in Hlong. split; [done|]. split; [|done].
    exists name. simpl. by rewrite Happ.
Qed.

Lemma sanitize_filename_bounded_witness :
  (len (splitext (str_filter (λ c, char_in c valid_chars) "notes: draft.txt")).2 ≤ 9)%Z
  ∧ (len (sanitize_filename "notes: draft.txt" 9) ≤ 9)%Z.
Proof.
  split; [by vm_compute|].
  apply (sanitize_filename_bounded "notes: draft.txt" 9). by vm_compute.
Defined.

(** C10 as stated fails: the extension of the input ["a.b!"] is [".b!"],
    three characters long, and the result ["a.b"] does not end with it. *)
Lemma sanitize_filename_input_extension_lost :
  let filename := "a.b!" in
  let ext := (splitext filename).2 in
  ext = ".b!" ∧ (len ext ≤ 150)%Z ∧
  sanitize_filename filename 150 = "a.b" ∧
  ¬ ∃ stem, sanitize_filename filename 150 = stem ++ ext.
Proof.
  repeat split; try by vm_compute.
  intros [stem H]. vm_compute in H.
  destruct stem as [|c1 [|c2 [|c3 [|c4 stem]]]]; discriminate H.
Qed.

End SanitizeFacts.

(** ** The collision loop *)

Module OsFacts.
Import PyStr OsPath Model Os Spec StrFacts.

Lemma path_exists_true (m : FS) p : path_exists m p = true ↔ is_Some (m !! p).
Proof. unfold path_exists. by rewrite bool_decide_eq_true. Qed.

Lemma path_exists_false (m : FS) p : path_exists m p = false ↔ m !! p = None.
Proof.
  unfold path_exists. rewrite bool_decide_eq_false.
  by rewrite <- eq_None_not_Some.
Qed.

Lemma str_app_inj_r (s s' t : string) : s ++ t = s' ++ t → s = s'.
Proof.
  revert s'. induction s as [|c s IH]; intros [|c' s'] H; try done.
  - apply (f_equal String.length) in H.
    rewrite !str_length_app in H. simpl in H. lia.
  - apply (f_equal String.length) in H.
    rewrite !str_length_app in H. simpl in H. lia.
  - rewrite !app_cons in H. injection H as -> H. f_equal. by apply IH.
Qed.

Lemma candidate_inj base ext : Inj (=) (=) (candidate base ext).
Proof.
  intros j k H. unfold candidate in H.
  apply (inj (String.app base)), (inj (String.app "_")) in H.
  by apply str_app_inj_r, (inj pretty) in H.
Qed.

Lemma probe_None_head (m : FS) base ext fuel counter p :
  probe m base ext fuel counter p = None → path_exists m p = true.
Proof. destruct fuel; simpl; by destruct (path_exists m p). Qed.

(** When the loop gives up, every candidate it tried exists. *)
Lemma probe_None (m : FS) base ext fuel counter p :
  probe m base ext fuel counter p = None →
  ∀ k, (counter ≤ k < counter + fuel)%nat → path_exists m (candidate base ext k) = true.
Proof.
  revert counter p. induction fuel as [|fuel IH]; intros counter p H k Hk; [lia|].
  simpl in H. destruct (path_exists m p); [|done].
  destruct (decide (k = counter)) as [->|Hne].
  - by apply probe_None_head in H.
  - apply (IH _ _ H). lia.
Qed.

(** The path the loop stops at is free; it is the first path unless that
    one exists, and otherwise the first free candidate. *)
Lemma probe_Some (m : FS) base ext fuel counter p q :
  probe m base ext fuel counter p = Some q →
  path_exists m q = false ∧
  (path_exists m p = false ∧ q = p
   ∨ path_exists m p = true ∧
     ∃ k, (counter ≤ k)%nat ∧ q = candidate base ext k ∧
          ∀ j, (counter ≤ j < k)%nat → path_exists m (candidate base ext j) = true).
Proof.
  revert counter p. induction fuel as [|fuel IH]; intros counter p H; simpl in H.
  - destruct (path_exists m p) eqn:Hp; [done|]. injection H as <-. auto.
  - destruct (path_exists m p) eqn:Hp.
    + apply IH in H as [Hq Hcase]. split; [done|]. right. split; [done|].
      destruct Hcase as [[Hfree ->]|[Hex (k & Hk & -> & Hbelow)]].
      * exists counter. split; [lia|]. split; [done|]. intros j Hj. lia.
      * exists k. split; [lia|]. split; [done|]. intros j Hj.
        destruct (decide (j = counter)) as [->|Hne]; [done|].
        apply Hbelow. lia.
    + injection H as <-. auto.
Qed.

(** The loop terminates: the candidates are pairwise distinct, so more of
    them than the file system has entries cannot all exist. *)
Lemma probe_total (m : FS) base ext p :
  is_Some (probe m base ext (S (size m)) 1 p).
Proof.
  destruct (probe m base ext (S (size m)) 1 p) eqn:H; [by eexists|].
  exfalso.
  pose proof (probe_None _ _ _ _ _ _ H) as Hall.
  set (l := candidate base ext <$> seq 1 (S (size m))).
  assert (Hnd : NoDup l).
  { apply (NoDup_fmap_2 (Inj0:=candidate_inj base ext) _), NoDup_seq. }
  assert (Hsub : list_to_set l ⊆ dom m).
  { intros x [k [-> Hk%elem_of_seq]]%elem_of_list_to_set%list_elem_of_fmap.
    apply elem_of_dom, path_exists_true, Hall. lia. }
  apply subseteq_size in Hsub.
  rewrite size_list_to_set, size_dom in Hsub by done.
  unfold l in Hsub. rewrite length_fmap, length_seq in Hsub. lia.
Qed.

Lemma free_path_spec (m : FS) base ext p :
  let q := free_path m base ext p in
  m !! q = None ∧
  (m !! p = None ∧ q = p
   ∨ is_Some (m !! p) ∧
     ∃ k, (1 ≤ k)%nat ∧ q = candidate base ext k ∧
          ∀ j, (1 ≤ j < k)%nat → is_Some (m !! candidate base ext j)).
Proof.
  unfold free_path. destruct (probe_total m base ext p) as [q Hq]. rewrite Hq.
  simpl. apply probe_Some in Hq as [Hfree Hcase].
  split; [by apply path_exists_false|].
  destruct Hcase as [[Hp ->]|[Hp (k & Hk & -> & Hbelow)]].
  - left. split; [by apply path_exists_false | done].
  - right. split; [by apply path_exists_true|].
    exists k. split; [done|]. split; [done|].
    intros j Hj. by apply path_exists_true, Hbelow.
Qed.

Lemma prefix_app_drop (s t p : string) :
  String.prefix (s ++ t) p = true → String.prefix t (drop (String.length s) p) = true.
Proof.
  revert p. induction s as [|c s IH]; intros p H; [by destruct p|].
  destruct p as [|b p]; [done|].
  rewrite app_cons in H. simpl in H. simpl.
  destruct (ascii_dec c b); [by apply IH | done].
Qed.

Lemma app_eq_self_l (s t : string) : s ++ t = s → t = "".
Proof.
  intros H. apply (f_equal String.length) in H. rewrite str_length_app in H.
  destruct t; [done | simpl in H; lia].
Qed.

(** After a successful rename of a directory to a free path, the directory
    is found at that path. *)
Lemma rename_lookup_target (m : FS) src dst :
  m !! src = Some Dir → m !! dst = None → rename src dst m !! dst = Some Dir.
Proof.
  intros Hsrc Hdst. unfold rename. apply elem_of_list_to_map_1'.
  - intros y ([p n] & Heq & Hin)%list_elem_of_fmap.
    apply elem_of_map_to_list in Hin. simpl in Heq.
    injection Heq as Hk ->. unfold rename_key in Hk.
    destruct (String.eqb_spec p src) as [->|Hne]; [congruence|].
    destruct (startswith p (src ++ "/")) eqn:Hpre.
    + symmetry in Hk. apply app_eq_self_l in Hk.
      apply prefix_app_drop in Hpre. rewrite Hk in Hpre. done.
    + congruence.
  - apply list_elem_of_fmap. exists (src, Dir). split.
    + simpl. unfold rename_key. by rewrite String.eqb_refl.
    + by apply elem_of_map_to_list.
Qed.

End OsFacts.

(** ** [download_files_from_links] *)

Module DownloadFacts.
Import PyStr OsPath Model Os Spec StrFacts OsFacts.
Import AttachmentDownloader.

Section WithEnv.
Variable E : Env.

Lemma target_path_free (m : FS) folder filename :
  m !! target_path E m folder filename = None.
Proof.
  unfold target_path. destruct (splitext _) as [base ext].
  apply free_path_spec.
Qed.



Lemma skip_reason_skipped lnk o : skip_reason lnk = Some o → skipped o = true.
Proof. unfold skip_reason. repeat case_match; naive_solver. Qed.



(** The list of failures built so far passes through a step untouched. *)
Lemma download_link_frame folder i lnk w failed :
  download_link E folder i lnk (w, failed) =
  ((download_link E folder i lnk (w, [])).1,
   (failed ++ (download_link E folder i lnk (w, [])).2)%list).
Proof.
  unfold download_link, on_status_200, get.
  repeat case_match; simplify_eq/=; by rewrite ?app_nil_r.
Qed.

(** One step of the loop against the outcome of its link. *)
Lemma download_link_spec folder i lnk w :
  let o := link_outcome E (length (requests w)) lnk in
  let r := download_link E folder i lnk (w, []) in
  r.2 = option_list (failure_of (lnk, o))
  ∧ requests r.1 = (requests w ++ (if skipped o then [] else [lnk]))%list
  ∧ fs w ⊆ fs r.1.
Proof.
  unfold link_outcome, skip_reason, download_link, on_status_200, get,
    response_outcome, resolve_filename, failure_of.
  destruct w as [m reqs]. simpl.
  destruct (startswith (lower lnk) "mailto:"); simpl;
    [by rewrite app_nil_r|].
  destruct (startswith (lower lnk) "http://" || startswith (lower lnk) "https://");
    simpl; [|by rewrite app_nil_r].
  destruct (http_get E (length reqs) lnk) as [e|r]; simpl; [done|].
  destruct (status_code r =? 200)%Z; simpl; [|done].
  destruct (disposition_filename r) as [e|[name|]]; simpl; [done|..].
  - destruct (truthy name);
      (destruct (body_error r); simpl;
       (split; [done|]; split; [done|]; apply insert_subseteq, target_path_free)).
  - destruct (body_error r); simpl;
      (split; [done|]; split; [done|]; apply insert_subseteq, target_path_free).
Qed.

Lemma download_loop_spec folder links :
  ∀ i w failed,
    let outs := outcomes E (length (requests w)) links in
    let r := download_loop E folder i links (w, failed) in
    r.2 = (failed ++ omap failure_of outs)%list
    ∧ requests r.1 = (requests w ++ (List.filter attempted outs).*1)%list
    ∧ fs w ⊆ fs r.1.
Proof.
  induction links as [|lnk links IH]; intros i w failed.
  - simpl. by rewrite !app_nil_r.
  - cbn [download_loop outcomes]. rewrite download_link_frame.
    destruct (download_link_spec folder i lnk w) as (Hf & Hreq & Hfs).
    destruct (download_link E folder i lnk (w, [])) as [w1 f1]. simpl in *.
    destruct (IH (S i) w1 (failed ++ f1)%list) as (Hf' & Hreq' & Hfs').
    assert (Hn : length (requests w1) =
                 if skipped (link_outcome E (length (requests w)) lnk)
                 then length (requests w) else S (length (requests w))).
    { rewrite Hreq. destruct (skipped _); rewrite length_app; simpl; lia. }
    rewrite Hn in Hf', Hreq'.
    split; [|split].
    + rewrite Hf', Hf, <- app_assoc. f_equal.
      unfold attempted. by destruct (failure_of _).
    + rewrite Hreq', Hreq, <- app_assoc. f_equal.
      unfold attempted. simpl. by destruct (skipped _).
    + by etrans.
Qed.

Lemma outcomes_links n links : (outcomes E n links).*1 = links.
Proof.
  revert n. induction links as [|lnk links IH]; intros n; simpl; [done|].
  by rewrite IH.
Qed.

Lemma ensure_folder_requests folder w :
  requests (ensure_folder folder w) = requests w.
Proof. unfold ensure_folder. by destruct (path_exists _ _). Qed.

Lemma ensure_folder_grows folder w : fs w ⊆ fs (ensure_folder folder w).
Proof.
  unfold ensure_folder, makedirs.
  destruct (path_exists _ _) eqn:H; [done|]. simpl.
  by apply insert_subseteq, path_exists_false.
Qed.

Lemma download_files_from_links_spec links folder w :
  let outs := outcomes E (length (requests w)) links in
  let r := download_files_from_links E links folder w in
  r.2 = omap failure_of outs
  ∧ requests r.1 = (requests w ++ (List.filter attempted outs).*1)%list
  ∧ fs w ⊆ fs r.1.
Proof.
  unfold download_files_from_links.
  destruct (download_loop_spec folder links 0 (ensure_folder folder w) [])
    as (Hf & Hreq & Hfs).
  rewrite ensure_folder_requests in *.
  split; [done|]. split; [done|].
  etrans; [apply ensure_folder_grows | done].
Qed.

(** The older copy takes the same steps; it only files fewer failures. *)
Lemma copy_link_frame folder i lnk w failed :
  AttachmentDownloaderCopy.download_link E folder i lnk (w, failed) =
  ((AttachmentDownloaderCopy.download_link E folder i lnk (w, [])).1,
   (failed ++ (AttachmentDownloaderCopy.download_link E folder i lnk (w, [])).2)%list).
Proof.
  unfold AttachmentDownloaderCopy.download_link, on_status_200, get.
  repeat case_match; simplify_eq/=; by rewrite ?app_nil_r.
Qed.

Lemma copy_link_vs_main folder i lnk w :
  let a := download_link E folder i lnk (w, []) in
  let b := AttachmentDownloaderCopy.download_link E folder i lnk (w, []) in
  b.1 = a.1 ∧ b.2 = List.filter not_401 a.2.
Proof.
  unfold AttachmentDownloaderCopy.download_link, download_link, on_status_200, get.
  destruct w as [m reqs]. simpl.
  destruct (startswith (lower lnk) "mailto:"); [done|].
  destruct (negb _); [done|].
  destruct (http_get E (length reqs) lnk) as [e|r]; [done|].
  destruct (status_code r =? 200)%Z eqn:H200.
  - destruct (resolve_filename E i lnk r); [done|].
    unfold save_response. simpl. by destruct (body_error r).
  - destruct (status_code r =? 401)%Z eqn:H401; simpl; unfold not_401; simpl.
    + apply Z.eqb_eq in H401 as ->. done.
    + apply Z.eqb_neq in H401.
      rewrite bool_decide_eq_false_2 by congruence. done.
Qed.

Lemma copy_loop_vs_main folder links :
  ∀ i w fa fb,
    let a := download_loop E folder i links (w, fa) in
    let b := AttachmentDownloaderCopy.download_loop E folder i links (w, fb) in
    b.1 = a.1 ∧
    ∃ added, a.2 = (fa ++ added)%list ∧ b.2 = (fb ++ List.filter not_401 added)%list.
Proof.
  induction links as [|lnk links IH]; intros i w fa fb.
  - simpl. split; [done|]. exists []. by rewrite !app_nil_r.
  - cbn [download_loop AttachmentDownloaderCopy.download_loop].
    rewrite download_link_frame, copy_link_frame.
    destruct (copy_link_vs_main folder i lnk w) as [Hw Hf].
    destruct (download_link E folder i lnk (w, [])) as [wa la].
    destruct (AttachmentDownloaderCopy.download_link E folder i lnk (w, []))
      as [wb lb].
    simpl in *. subst wb lb.
    destruct (IH (S i) wa (fa ++ la)%list (fb ++ List.filter not_401 la)%list)
      as (Hw & added & Ha & Hb).
    split; [done|]. exists (la ++ added)%list.
    rewrite Ha, Hb, List.filter_app, <- !app_assoc. done.
Qed.

End WithEnv.

End DownloadFacts.

(** ** Claims about [download_files_from_links] *)

Module DownloadClaims.
Import PyStr OsPath Model Os Spec StrFacts OsFacts DownloadFacts.
Import AttachmentDownloader.


(** C2: the two variants differ in the 401 policy only.  For a fetched
    link answered with a status other than 200, the current script files a
    record with that status; the older copy files the same record unless
    the status is 401, and then files nothing.  Over a whole list of
    links, both leave the same world behind and the copy returns the
    failures of the current script without those of status 401. *)
Theorem variants_differ_in_401_only (E : Env) (download_folder : string)
    (i : nat) (lnk : string) (w : World) (failed : list FailureRecord)
    (resp : Response) :
  skip_reason lnk = None →
  http_get E (length (requests w)) lnk = GetResponse resp →
  status_code resp ≠ 200%Z →
  let w' := mkWorld (fs w) (requests w ++ [lnk]) in
  let rec := failure lnk (Some (status_code resp))
               ("Status " ++ pretty (status_code resp)) in
  download_link E download_folder i lnk (w, failed) = (w', (failed ++ [rec])%list)
  ∧ AttachmentDownloaderCopy.download_link E download_folder i lnk (w, failed) =
    (w', if (status_code resp =? 401)%Z then failed else (failed ++ [rec])%list)
  ∧ (∀ links folder w0,
       let a := download_files_from_links E links folder w0 in
       let b := AttachmentDownloaderCopy.download_files_from_links E links folder w0 in
       b.1 = a.1 ∧ b.2 = List.filter not_401 a.2).
Proof.
  intros Hskip Hget Hst w' rec.
  assert (Hm : startswith (lower lnk) "mailto:" = false
               ∧ negb (startswith (lower lnk) "http://"
                       || startswith (lower lnk) "https://") = false).
  { unfold skip_reason in Hskip. by repeat case_match. }
  destruct Hm as [Hm Hh].
  apply Z.eqb_neq in Hst.
  split; [|split].
  - unfold download_link, get. by rewrite Hm, Hh, Hget, Hst.
  - unfold AttachmentDownloaderCopy.download_link, get.
    rewrite Hm, Hh, Hget, Hst. by destruct (status_code resp =? 401)%Z.
  - intros links folder w0 a b.
    destruct (copy_loop_vs_main E folder links 0 (ensure_folder folder w0) [] [])
      as (Hw & added & Ha & Hb).
    unfold a, b, download_files_from_links,
      AttachmentDownloaderCopy.download_files_from_links.
    split; [done|]. simpl in Ha, Hb. by rewrite Hb, Ha.
Qed.

Lemma variants_differ_in_401_only_witness :
  AttachmentDownloaderCopy.download_link Scenario.env "attachments" 0
    Scenario.locked (Scenario.start, []) =
  (mkWorld (fs Scenario.start) [Scenario.locked], []).
Proof.
  refine (proj1 (proj2 (variants_differ_in_401_only Scenario.env "attachments" 0
    Scenario.locked Scenario.start []
    (mkResponse 401 None None [] None) _ _ _)));
    [reflexivity | reflexivity | by vm_compute].
Defined.



End DownloadClaims.

(** ** [extract_hyperlinks_from_pdf] *)

Module ExtractClaims.
Import PyStr Model Spec.
Import AttachmentDownloader.

Lemma page_hyperlinks_spec (page : Page) (links : list string) :
  page_hyperlinks links page = (links ++ omap uri_target page)%list.
Proof.
  unfold page_hyperlinks. revert links.
  induction page as [|l page IH]; intros links; simpl.
  - by rewrite app_nil_r.
  - rewrite IH. unfold uri_target.
    destruct (uri l) as [u|]; [destruct (truthy u)|]; simpl;
      by rewrite <- ?app_assoc.
Qed.

Lemma document_hyperlinks_spec (doc : Document) (links : list string) :
  fold_left page_hyperlinks doc links = (links ++ uri_targets doc)%list.
Proof.
  unfold uri_targets. revert links.
  induction doc as [|page doc IH]; intros links; simpl.
  - by rewrite app_nil_r.
  - by rewrite IH, page_hyperlinks_spec, omap_app, app_assoc.
Qed.

Lemma length_omap_filter (ls : list Link) :
  length (omap uri_target ls) = length (List.filter has_uri_target ls).
Proof.
  induction ls as [|l ls IH]; [done|].
  cbn [omap list_omap List.filter]. unfold has_uri_target at 1.
  destruct (uri_target l); simpl; by rewrite <- IH.
Qed.

(** C4: for a PDF that opens, the extractor returns the URI targets of its
    link annotations, in page order and then annotation order; there are as
    many as annotations with a target, and an annotation without one adds
    nothing, wherever it stands. *)
Theorem extract_returns_uri_targets (E : Env) (pdf_path : string) (doc : Document) :
  fitz_open E pdf_path = inr doc →
  extract_hyperlinks_from_pdf E pdf_path = inr (omap uri_target (concat doc))
  ∧ length (omap uri_target (concat doc))
    = length (List.filter has_uri_target (concat doc))
  ∧ (∀ before after l,
       concat doc = (before ++ l :: after)%list →
       omap uri_target (concat doc)
       = (omap uri_target before ++ option_list (uri_target l)
          ++ omap uri_target after)%list)
  ∧ (∀ l, uri l = None → uri_target l = None).
Proof.
  intros Hopen. split; [|split; [|split]].
  - unfold extract_hyperlinks_from_pdf. rewrite Hopen.
    by rewrite document_hyperlinks_spec.
  - apply length_omap_filter.
  - intros before after l ->. rewrite omap_app. simpl.
    by destruct (uri_target l).
  - intros l Hl. unfold uri_target. by rewrite Hl.
Qed.

Lemma extract_returns_uri_targets_witness :
  extract_hyperlinks_from_pdf Scenario.env "Submittals/A.pdf"
  = inr [Scenario.mail; Scenario.good; Scenario.bad].
Proof.
  refine (proj1 (extract_returns_uri_targets Scenario.env "Submittals/A.pdf"
    [[mkLink (Some Scenario.mail); mkLink None; mkLink (Some Scenario.good)];
     [mkLink (Some Scenario.bad)]] _)).
  reflexivity.
Defined.

End ExtractClaims.

(** ** [process_pdf_folder] *)

Module ProcessFacts.
Import PyStr OsPath Sanitize Model Os Spec StrFacts OsFacts DownloadFacts.
Import AttachmentDownloader.

Section WithEnv.
Variable E : Env.

Lemma extract_error pdf_file e :
  fitz_open E pdf_file = inl e → extract_hyperlinks_from_pdf E pdf_file = inl e.
Proof. intros H. unfold extract_hyperlinks_from_pdf. by rewrite H. Qed.

Lemma elem_of_tag b folder failed f :
  f ∈ tag b folder failed → pdf_file f = Some b ∧ attachments_folder f = Some folder.
Proof. unfold tag. intros (g & -> & _)%list_elem_of_fmap. done. Qed.

Lemma rename_target_free (m : FS) dest b i : m !! rename_target m dest b i = None.
Proof. unfold rename_target. apply free_path_spec. Qed.

(** The folder records are tagged with, and the world, after [organize]. *)
Lemma organize_spec dest b i sub failed w :
  let target := rename_target (fs w) dest b i in
  organize E dest b i sub failed w =
  if isdir (fs w) sub then
    match rename_error E (fs w) sub target with
    | Some _ => (w, tag b sub failed)
    | None => (mkWorld (rename sub target (fs w)) (requests w), tag b target failed)
    end
  else (w, tag b (join dest (positional_name i)) failed).
Proof.
  intros target. unfold organize. fold target.
  destruct (isdir (fs w) sub) eqn:Hdir; [|done].
  rewrite bool_decide_eq_true_2; [done|].
  intros ->. apply bool_decide_eq_true in Hdir.
  unfold target in Hdir. by rewrite rename_target_free in Hdir.
Qed.

Lemma organize_tagged dest b i sub failed w f :
  f ∈ (organize E dest b i sub failed w).2 → pdf_file f = Some b.
Proof.
  rewrite organize_spec. repeat case_match; simpl; intros Hf;
    by apply elem_of_tag in Hf as [? _].
Qed.

Lemma process_pdf_missing dest i pdf_file st :
  path_exists (fs (world st)) pdf_file = false →
  process_pdf E dest i pdf_file st = st.
Proof. intros H. unfold process_pdf. by rewrite H. Qed.

Lemma process_pdf_zero dest i pdf_file st :
  path_exists (fs (world st)) pdf_file = true →
  (∃ e, extract_hyperlinks_from_pdf E pdf_file = inl e)
  ∨ extract_hyperlinks_from_pdf E pdf_file = inr [] →
  process_pdf E dest i pdf_file st =
  mkRun (world st)
    (file_summary st ++ [mkSummary (Z.of_nat i + 1) (basename pdf_file) 0])
    (all_failed_downloads st) (written st).
Proof.
  intros Hex H. unfold process_pdf. rewrite Hex. simpl.
  by destruct H as [[e ->]| ->].
Qed.

Lemma process_pdf_links dest i pdf_file st links :
  path_exists (fs (world st)) pdf_file = true →
  extract_hyperlinks_from_pdf E pdf_file = inr links →
  links ≠ [] →
  let sub := join dest (positional_name i) in
  let d := download_files_from_links E links sub (world st) in
  let o := organize E dest (basename pdf_file) i sub d.2 d.1 in
  process_pdf E dest i pdf_file st =
  mkRun o.1
    (file_summary st ++
       [mkSummary (Z.of_nat i + 1) (basename pdf_file)
          (Z.of_nat (length links) - Z.of_nat (length d.2))])
    (all_failed_downloads st ++ o.2) (written st).
Proof.
  intros Hex Hext Hne sub d o. unfold process_pdf. rewrite Hex, Hext. simpl.
  destruct links as [|lnk links]; [done|].
  fold sub. fold d. destruct d as [w1 failed] eqn:Hd. simpl in o.
  fold o. by destruct o as [w2 failed'].
Qed.

(** What one document adds to the run. *)
Lemma process_pdf_step dest i pdf st :
  let st' := process_pdf E dest i pdf st in
  written st' = written st
  ∧ file_summary st `prefix_of` file_summary st'
  ∧ ∃ added,
      all_failed_downloads st' = (all_failed_downloads st ++ added)%list
      ∧ (added ≠ [] → ∃ links, extract_hyperlinks_from_pdf E pdf = inr links
                               ∧ links ≠ [])
      ∧ ∀ f, f ∈ added → pdf_file f = Some (basename pdf).
Proof.
  destruct (path_exists (fs (world st)) pdf) eqn:Hex.
  - destruct (extract_hyperlinks_from_pdf E pdf) as [e|links] eqn:Hext;
      [|destruct (decide (links = [])) as [->|Hne]].
    + simpl. rewrite process_pdf_zero by eauto. simpl.
      split; [done|]. split; [by apply prefix_app_r|].
      exists []. rewrite app_nil_r. split; [done|]. split; [done|].
      by intros f ?%elem_of_nil.
    + simpl. rewrite process_pdf_zero by eauto. simpl.
      split; [done|]. split; [by apply prefix_app_r|].
      exists []. rewrite app_nil_r. split; [done|]. split; [done|].
      by intros f ?%elem_of_nil.
    + simpl. rewrite (process_pdf_links _ _ _ _ links) by done. simpl.
      split; [done|]. split; [by apply prefix_app_r|].
      eexists. split; [done|]. split; [eauto|].
      intros f. apply organize_tagged.
  - simpl. rewrite process_pdf_missing by done.
    split; [done|]. split; [done|].
    exists []. rewrite app_nil_r. split; [done|]. split; [done|].
    by intros f ?%elem_of_nil.
Qed.

Lemma process_loop_step dest pdf_files :
  ∀ i st,
    let st' := process_loop E dest i pdf_files st in
    written st' = written st
    ∧ file_summary st `prefix_of` file_summary st'
    ∧ ∀ f, f ∈ all_failed_downloads st' →
        f ∈ all_failed_downloads st
        ∨ ∃ p links, p ∈ pdf_files ∧ pdf_file f = Some (basename p)
                     ∧ extract_hyperlinks_from_pdf E p = inr links ∧ links ≠ [].
Proof.
  induction pdf_files as [|p pdf_files IH]; intros i st.
  - simpl. auto.
  - cbn [process_loop].
    destruct (process_pdf_step dest i p st) as (Hw & Hs & added & Ha & Hadd & Hf).
    destruct (IH (S i) (process_pdf E dest i p st)) as (Hw' & Hs' & Hf').
    split; [congruence|]. split; [by etrans|].
    intros f [Hin|(q & links & Hq & Hb & Hext & Hne)]%Hf'.
    + rewrite Ha in Hin. apply elem_of_app in Hin as [Hin|Hin]; [by left|].
      right. destruct Hadd as (links & Hext & Hne).
      { intros ->. by apply elem_of_nil in Hin. }
      exists p, links. split; [by left|]. auto.
    + right. exists q, links. split; [by right|]. auto.
Qed.

Lemma process_loop_app dest before after i st :
  process_loop E dest i (before ++ after)%list st =
  process_loop E dest (i + length before) after (process_loop E dest i before st).
Proof.
  revert i st. induction before as [|p before IH]; intros i st; simpl.
  - by rewrite Nat.add_0_r.
  - rewrite IH. f_equal. lia.
Qed.

Lemma write_reports_spec dest st :
  let r := write_reports dest st in
  world r = world st ∧ file_summary r = file_summary st
  ∧ all_failed_downloads r = all_failed_downloads st
  ∧ written r =
    (written st ++
      (join dest "file_summary.csv", SummaryCsv (file_summary st)) ::
      match all_failed_downloads st with
      | [] => []
      | _ :: _ =>
          [(join dest "failed_downloads.csv", FailedCsv (all_failed_downloads st))]
      end)%list.
Proof.
  unfold write_reports. destruct (all_failed_downloads st) eqn:H; simpl;
    rewrite ?H, <- ?app_assoc; done.
Qed.

End WithEnv.

(** When discovery finds no PDF the function returns before any report. *)
Lemma no_pdf_nothing_written (E : Env) (src dest : string) (w : World) :
  glob E (join src "*.pdf") = [] →
  written (process_pdf_folder E src dest w) = [].
Proof. intros H. unfold process_pdf_folder. by rewrite H. Qed.

Lemma NoDup_fmap_elem {A B} (f : A → B) (l : list A) x y :
  NoDup (f <$> l) → x ∈ l → y ∈ l → f x = f y → x = y.
Proof.
  induction l as [|a l IH]; intros Hnd Hx Hy Hxy; [by apply elem_of_nil in Hx|].
  rewrite fmap_cons in Hnd. apply NoDup_cons in Hnd as [Hna Hnd].
  apply elem_of_cons in Hx as [->|Hx]; apply elem_of_cons in Hy as [->|Hy]; auto.
  - exfalso. apply Hna. rewrite Hxy. by apply list_elem_of_fmap_2.
  - exfalso. apply Hna. rewrite <- Hxy. by apply list_elem_of_fmap_2.
Qed.

End ProcessFacts.

Module ProcessClaims.
Import PyStr OsPath Sanitize Model Os Spec StrFacts OsFacts DownloadFacts ProcessFacts.
Import AttachmentDownloader.

Section WithEnv.
Variable E : Env.

(** A document that yields no links, because it does not open or because
    it has none: one summary row with count 0, nothing else changes, and
    the run goes on with the next document. *)
Lemma zero_document (src dest : string) (w : World)
    (before after : list string) (pdf : string) :
  glob E (join src "*.pdf") = (before ++ pdf :: after)%list →
  NoDup (basename <$> (before ++ pdf :: after)%list) →
  (∃ e, extract_hyperlinks_from_pdf E pdf = inl e)
  ∨ extract_hyperlinks_from_pdf E pdf = inr [] →
  let st := process_loop E dest 0 before (mkRun (ensure_destination dest w) [] [] []) in
  path_exists (fs (world st)) pdf = true →
  let st' := process_pdf E dest (length before) pdf st in
  let final := process_pdf_folder E src dest w in
  let row := mkSummary (Z.of_nat (length before) + 1) (basename pdf) 0 in
  st' = mkRun (world st) (file_summary st ++ [row]) (all_failed_downloads st)
          (written st)
  ∧ final = write_reports dest (process_loop E dest (S (length before)) after st')
  ∧ row ∈ file_summary final
  ∧ (∀ f, f ∈ all_failed_downloads final → pdf_file f ≠ Some (basename pdf)).
Proof.
  intros Hglob Hnd Hzero st Hex st' final row.
  assert (Hst' : st' = mkRun (world st) (file_summary st ++ [row])
                   (all_failed_downloads st) (written st)).
  { unfold st'. by rewrite process_pdf_zero. }
  assert (Hfinal : final =
            write_reports dest (process_loop E dest (S (length before)) after st')).
  { unfold final, process_pdf_folder. rewrite Hglob.
    destruct (before ++ pdf :: after)%list eqn:Hl.
    { by destruct before. }
    rewrite <- Hl, process_loop_app. simpl. done. }
  split; [done|]. split; [done|]. split.
  - rewrite Hfinal.
    destruct (write_reports_spec dest
                (process_loop E dest (S (length before)) after st'))
      as (_ & -> & _).
    destruct (process_loop_step E dest after (S (length before)) st')
      as (_ & Hpre & _).
    eapply elem_of_prefix; [|done].
    rewrite Hst'. simpl. apply elem_of_app. right. by left.
  - intros f Hf Hb. unfold final, process_pdf_folder in Hf. rewrite Hglob in Hf.
    destruct (before ++ pdf :: after)%list eqn:Hl.
    { by destruct before. }
    rewrite <- Hl in *.
    destruct (write_reports_spec dest
                (process_loop E dest 0 (before ++ pdf :: after)
                   (mkRun (ensure_destination dest w) [] [] [])))
      as (_ & _ & Hall & _).
    rewrite Hall in Hf.
    apply (process_loop_step E dest) in Hf
      as [Hf|(p & links & Hp & Hbp & Hext & Hne)].
    { by apply elem_of_nil in Hf. }
    assert (p = pdf) as ->.
    { apply (NoDup_fmap_elem basename (before ++ pdf :: after)); try done.
      - apply elem_of_app. right. by left.
      - congruence. }
    destruct Hzero as [[e He]|He]; congruence.
Qed.

End WithEnv.

(** C6: when a PDF that is still there fails to open, its summary row with
    count 0 is appended and nothing else changes; the run continues with
    the next PDF, that row reaches the summary, and no failure record of
    the run names the document. *)
Theorem open_failure_gives_zero_row (E : Env) (src dest : string) (w : World)
    (before after : list string) (pdf e : string) :
  glob E (join src "*.pdf") = (before ++ pdf :: after)%list →
  NoDup (basename <$> (before ++ pdf :: after)%list) →
  fitz_open E pdf = inl e →
  let st := process_loop E dest 0 before (mkRun (ensure_destination dest w) [] [] []) in
  path_exists (fs (world st)) pdf = true →
  let st' := process_pdf E dest (length before) pdf st in
  let final := process_pdf_folder E src dest w in
  let row := mkSummary (Z.of_nat (length before) + 1) (basename pdf) 0 in
  st' = mkRun (world st) (file_summary st ++ [row]) (all_failed_downloads st)
          (written st)
  ∧ final = write_reports dest (process_loop E dest (S (length before)) after st')
  ∧ row ∈ file_summary final
  ∧ (∀ f, f ∈ all_failed_downloads final → pdf_file f ≠ Some (basename pdf)).
Proof.
  intros Hglob Hnd Hopen. apply (zero_document E src dest w); try done.
  left. exists e. by apply extract_error.
Qed.

Lemma open_failure_gives_zero_row_witness :
  mkSummary 2 "B.pdf" 0
  ∈ file_summary
      (process_pdf_folder Scenario.env "Submittals" "attachments" Scenario.start).
Proof.
  refine (proj1 (proj2 (proj2
    (open_failure_gives_zero_row Scenario.env "Submittals" "attachments"
       Scenario.start ["Submittals/A.pdf"] ["Submittals/C.pdf"]
       "Submittals/B.pdf" "cannot open broken document" _ _ _ _))));
    [reflexivity | by apply (bool_decide_unpack (NoDup _)); vm_compute
    | reflexivity | by vm_compute].
Defined.

(** C9: for a PDF, still there, from which no hyperlink is extracted,
    [process_pdf_folder] leaves the world as it is, so it creates no
    subfolder, files no failure, and appends the summary row with count
    0. *)
Theorem no_links_gives_zero_row (E : Env) (src dest : string) (w : World)
    (before after : list string) (pdf : string) :
  glob E (join src "*.pdf") = (before ++ pdf :: after)%list →
  NoDup (basename <$> (before ++ pdf :: after)%list) →
  extract_hyperlinks_from_pdf E pdf = inr [] →
  let st := process_loop E dest 0 before (mkRun (ensure_destination dest w) [] [] []) in
  path_exists (fs (world st)) pdf = true →
  let st' := process_pdf E dest (length before) pdf st in
  let final := process_pdf_folder E src dest w in
  let row := mkSummary (Z.of_nat (length before) + 1) (basename pdf) 0 in
  world st' = world st
  ∧ fs (world st') !! join dest (positional_name (length before))
    = fs (world st) !! join dest (positional_name (length before))
  ∧ all_failed_downloads st' = all_failed_downloads st
  ∧ file_summary st' = (file_summary st ++ [row])%list
  ∧ row ∈ file_summary final
  ∧ (∀ f, f ∈ all_failed_downloads final → pdf_file f ≠ Some (basename pdf)).
Proof.
  intros Hglob Hnd Hext st Hex st' final row.
  destruct (zero_document E src dest w before after pdf Hglob Hnd (or_intror Hext) Hex)
    as (Hst' & _ & Hrow & Hno).
  fold st st' in Hst'. rewrite Hst'. simpl. done.
Qed.

Lemma no_links_gives_zero_row_witness :
  mkSummary 3 "C.pdf" 0
  ∈ file_summary
      (process_pdf_folder Scenario.env "Submittals" "attachments" Scenario.start).
Proof.
  refine (proj1 (proj2 (proj2 (proj2 (proj2
    (no_links_gives_zero_row Scenario.env "Submittals" "attachments"
       Scenario.start ["Submittals/A.pdf"; "Submittals/B.pdf"] []
       "Submittals/C.pdf" _ _ _ _))))));
    [reflexivity | by apply (bool_decide_unpack (NoDup _)); vm_compute
    | reflexivity | by vm_compute].
Defined.



(** C8: for a document with links whose working subfolder is a directory
    after the downloads, the subfolder is never its own rename target; when
    [os.rename] fails, the world is left as the downloads left it, the
    subfolder is still there, and the records the document adds carry the
    path of the subfolder; when it succeeds, the folder is at the target
    path and the records carry that path.  Tagging changes nothing else in
    a record. *)
Theorem rename_failure_keeps_original_path (E : Env) (dest : string) (i : nat)
    (pdf : string) (st : Run) (links : list string) (res : option string) :
  path_exists (fs (world st)) pdf = true →
  extract_hyperlinks_from_pdf E pdf = inr links →
  links ≠ [] →
  let sub := join dest (positional_name i) in
  let d := download_files_from_links E links sub (world st) in
  let target := rename_target (fs d.1) dest (basename pdf) i in
  isdir (fs d.1) sub = true →
  rename_error E (fs d.1) sub target = res →
  let st' := process_pdf E dest i pdf st in
  sub ≠ target
  ∧ match res with
    | Some _ =>
        world st' = d.1
        ∧ fs (world st') !! sub = Some Dir
        ∧ all_failed_downloads st' =
          (all_failed_downloads st ++ tag (basename pdf) sub d.2)%list
    | None =>
        fs (world st') = rename sub target (fs d.1)
        ∧ fs (world st') !! target = Some Dir
        ∧ all_failed_downloads st' =
          (all_failed_downloads st ++ tag (basename pdf) target d.2)%list
    end
  ∧ (∀ folder f, f ∈ tag (basename pdf) folder d.2 →
       attachments_folder f = Some folder)
  ∧ (∀ folder, (λ f, (link f, failure_status f, error f)) <$> tag (basename pdf) folder d.2
               = (λ f, (link f, failure_status f, error f)) <$> d.2).
Proof.
  intros Hex Hext Hne sub d target Hdir Hres st'.
  assert (Hsub : sub ≠ target).
  { intros Heq. apply bool_decide_eq_true in Hdir. rewrite Heq in Hdir.
    unfold target in Hdir. by rewrite rename_target_free in Hdir. }
  split; [done|]. split; [|split].
  - unfold st'. rewrite (process_pdf_links E dest i pdf st links) by done.
    fold sub. fold d. simpl. rewrite organize_spec. fold target.
    apply bool_decide_eq_true in Hdir as Hd.
    rewrite Hdir, Hres. destruct res; simpl.
    + done.
    + split; [done|]. split; [|done].
      apply rename_lookup_target; [done | apply rename_target_free].
  - intros folder f Hf. by apply elem_of_tag in Hf as [_ ?].
  - intros folder. unfold tag. rewrite <- list_fmap_compose. done.
Qed.

Lemma rename_failure_keeps_original_path_witness :
  all_failed_downloads
    (process_pdf Scenario.env_no_rename "attachments" 0 "Submittals/A.pdf"
       (mkRun Scenario.start [] [] []))
  = [mkFailure Scenario.bad (Some 404%Z) "Status 404" (Some "A.pdf")
       (Some "attachments/pdf_1")].
Proof.
  refine (proj2 (proj2 (proj1 (proj2
    (rename_failure_keeps_original_path Scenario.env_no_rename "attachments" 0
       "Submittals/A.pdf" (mkRun Scenario.start [] [] [])
       [Scenario.mail; Scenario.good; Scenario.bad] (Some "Permission denied")
       _ _ _ _ _)))));
    by vm_compute.
Defined.

Lemma length_outcomes_split (outs : list (string * DownloadOutcome)) :
  length outs =
  (length (omap failure_of outs)
   + length (List.filter (λ x, is_success x.2) outs)
   + length (List.filter (λ x, skipped x.2) outs))%nat.
Proof.
  induction outs as [|[lnk o] outs IH]; [done|].
  cbn [omap list_omap List.filter length]. unfold failure_of at 1.
  destruct o; simpl; lia.
Qed.

(** What the summary row of a document with links holds: the number of
    links that were downloaded plus the number that were skipped. *)
Lemma summary_count_spec (E : Env) (dest : string) (i : nat) (pdf : string)
    (st : Run) (links : list string) :
  path_exists (fs (world st)) pdf = true →
  extract_hyperlinks_from_pdf E pdf = inr links →
  links ≠ [] →
  let outs := outcomes E (length (requests (world st))) links in
  file_summary (process_pdf E dest i pdf st) =
  (file_summary st ++
     [mkSummary (Z.of_nat i + 1) (basename pdf)
        (Z.of_nat (length (List.filter (λ x, is_success x.2) outs)
                   + length (List.filter (λ x, skipped x.2) outs)))])%list.
Proof.
  intros Hex Hext Hne outs.
  rewrite (process_pdf_links E dest i pdf st links) by done. simpl.
  do 3 f_equal.
  destruct (download_files_from_links_spec E links
              (join dest (positional_name i)) (world st)) as (-> & _).
  fold outs.
  pose proof (length_outcomes_split outs) as Hlen.
  pose proof (outcomes_links E (length (requests (world st))) links) as Hl.
  apply (f_equal length) in Hl. rewrite length_fmap in Hl. fold outs in Hl.
  lia.
Qed.

(** C1 fails on the run of the scenario: [A.pdf] has a mail link, a link
    answered 200 and a link answered 404; one file is downloaded, two GETs
    are issued, and the summary row of [A.pdf] says 2. *)
Theorem summary_counts_skipped_links :
  let final :=
    process_pdf_folder Scenario.env "Submittals" "attachments" Scenario.start in
  let outs := outcomes Scenario.env 0 [Scenario.mail; Scenario.good; Scenario.bad] in
  outs = [(Scenario.mail, SkippedMailto); (Scenario.good, Success);
          (Scenario.bad, Failed (Some 404%Z) "Status 404")]
  ∧ length (List.filter (λ x, is_success x.2) outs) = 1%nat
  ∧ requests (world final) = [Scenario.good; Scenario.bad]
  ∧ file_summary final !! 0%nat = Some (mkSummary 1 "A.pdf" 2).
Proof. by vm_compute. Qed.

End ProcessClaims.

(** * Further properties of the code *)

Local Open Scope nat_scope.

(** ** More on [sanitize_filename] *)

Module SanitizeExtras.
Import PyStr OsPath Sanitize Spec StrFacts SanitizeFacts.

Lemma chars_app (s t : string) :
  list_ascii_of_string (s ++ t) = (list_ascii_of_string s ++ list_ascii_of_string t)%list.
Proof.
  induction s as [|c s IH]; [done|]. rewrite app_cons. simpl. by rewrite IH.
Qed.

Lemma chars_filter_sublist f (s : string) :
  list_ascii_of_string (str_filter f s) `sublist_of` list_ascii_of_string s.
Proof.
  induction s as [|c s IH]; simpl; [done|].
  destruct (f c); simpl; by constructor.
Qed.

Lemma chars_take_sublist n (s : string) :
  list_ascii_of_string (take n s) `sublist_of` list_ascii_of_string s.
Proof.
  revert s. induction n as [|n IH]; intros [|c s]; simpl;
    try apply sublist_nil_l. by constructor.
Qed.

Lemma slice_to_take k s : ∃ n, slice_to k s = take n s.
Proof. unfold slice_to. destruct (0 <=? k)%Z; eauto. Qed.

Lemma str_filter_id f s : str_all f s = true → str_filter f s = s.
Proof.
  induction s as [|c s IH]; simpl; [done|].
  intros [-> Hs]%andb_prop. by rewrite IH.
Qed.

Lemma kept_allowed (filename : string) :
  str_all allowed_char (str_filter (λ c, char_in c valid_chars) filename) = true.
Proof.
  rewrite <- (str_all_filter (λ c, char_in c valid_chars) filename).
  apply str_all_ext. intros c. by rewrite char_in_valid_chars.
Qed.

(** The result, whatever the bound: a prefix of the stem followed by the
    extension of the filtered name. *)
Lemma sanitize_filename_shape (filename : string) (max_length : Z) :
  let kept := str_filter (λ c, char_in c valid_chars) filename in
  ∃ n, sanitize_filename filename max_length
       = take n (splitext kept).1 ++ (splitext kept).2.
Proof.
  intros kept. unfold sanitize_filename. fold kept.
  pose proof (splitext_app kept) as Happ.
  destruct (splitext kept) as [name ext]. simpl in *.
  destruct (max_length <? len kept)%Z.
  - destruct (slice_to_take (max_length - len ext) name) as [n ->]. eauto.
  - exists (String.length name). rewrite <- Happ at 1. f_equal.
    clear. induction name as [|c name IH]; simpl; [done | by rewrite <- IH].
Qed.

Lemma sanitize_filename_allowed (filename : string) (max_length : Z) :
  str_all allowed_char (sanitize_filename filename max_length) = true.
Proof.
  destruct (sanitize_filename_shape filename max_length) as [n ->].
  pose proof (kept_allowed filename) as Hall.
  rewrite <- (splitext_app (str_filter _ filename)), str_all_app in Hall.
  apply andb_prop in Hall as [Hname Hext].
  by rewrite str_all_app, Hext, str_all_take.
Qed.

Lemma sanitize_filename_clean (s : string) (max_length : Z) :
  str_all allowed_char s = true → (len s ≤ max_length)%Z →
  sanitize_filename s max_length = s.
Proof.
  intros Hall Hlen. unfold sanitize_filename.
  rewrite str_filter_id.
  - destruct (splitext s) as [name ext].
    by rewrite (proj2 (Z.ltb_ge _ _) Hlen).
  - rewrite <- Hall. apply str_all_ext. intros c. apply char_in_valid_chars.
Qed.

Lemma sanitize_filename_length (filename : string) (max_length : Z) :
  let kept := str_filter (λ c, char_in c valid_chars) filename in
  (len (sanitize_filename filename max_length) ≤ max_length)%Z
  ↔ (len (splitext kept).2 ≤ max_length)%Z.
Proof.
  intros kept. unfold sanitize_filename. fold kept.
  pose proof (splitext_app kept) as Happ.
  destruct (splitext kept) as [name ext]. simpl in *.
  assert (Hk : len kept = (len name + len ext)%Z).
  { unfold len. rewrite <- Happ, str_length_app. lia. }
  destruct (max_length <? len kept)%Z eqn:Hlong.
  - apply Z.ltb_lt in Hlong. unfold slice_to.
    destruct (0 <=? max_length - len ext)%Z eqn:Hfit.
    + apply Z.leb_le in Hfit. split; [lia|]. intros _.
      unfold len in *. rewrite str_length_app, str_length_take. lia.
    + apply Z.leb_gt in Hfit. split; [|lia]. intros Hr. exfalso.
      unfold len in *. rewrite str_length_app in Hr. lia.
  - apply Z.ltb_ge in Hlong. unfold len in *. lia.
Qed.

(** X1: the length bound holds exactly when the extension fits: the result
    is at most [max_length] long if and only if the extension of the
    filtered name is; a longer extension is kept whole and the result
    overshoots. *)
Theorem sanitize_filename_fits_iff_extension_fits (filename : string)
    (max_length : Z) :
  let kept := str_filter (λ c, char_in c valid_chars) filename in
  let ext := (splitext kept).2 in
  let r := sanitize_filename filename max_length in
  ((len r ≤ max_length)%Z ↔ (len ext ≤ max_length)%Z)
  ∧ (len ext ≤ len r)%Z
  ∧ ∃ stem, r = stem ++ ext.
Proof.
  intros kept ext r. split; [apply sanitize_filename_length|].
  destruct (sanitize_filename_shape filename max_length) as [n Hn].
  fold kept r in Hn. fold ext in Hn. split; [|eauto].
  rewrite Hn. unfold len. rewrite str_length_app. lia.
Qed.

(** X2: a name of allowed characters that is short enough is returned as
    it is, so sanitizing twice with a bound the extension fits gives what
    sanitizing once gives. *)
Theorem sanitize_filename_idempotent (filename : string) (max_length : Z) :
  let kept := str_filter (λ c, char_in c valid_chars) filename in
  (len (splitext kept).2 ≤ max_length)%Z →
  sanitize_filename (sanitize_filename filename max_length) max_length
  = sanitize_filename filename max_length
  ∧ ∀ s, str_all allowed_char s = true → (len s ≤ max_length)%Z →
         sanitize_filename s max_length = s.
Proof.
  intros kept Hext. split.
  - apply sanitize_filename_clean; [apply sanitize_filename_allowed|].
    by apply sanitize_filename_length.
  - intros s. apply sanitize_filename_clean.
Qed.

Lemma sanitize_filename_idempotent_witness :
  sanitize_filename (sanitize_filename "Report: final (v2).pdf" 12) 12
  = sanitize_filename "Report: final (v2).pdf" 12.
Proof.
  refine (proj1 (sanitize_filename_idempotent "Report: final (v2).pdf" 12 _)).
  by vm_compute.
Defined.

(** X3: whatever the bound, the result is made of allowed characters only
    and is a subsequence of the input: characters are dropped, never
    added, replaced or reordered; the empty name stays empty. *)
Theorem sanitize_filename_subsequence (filename : string) (max_length : Z) :
  let r := sanitize_filename filename max_length in
  str_all allowed_char r = true
  ∧ list_ascii_of_string r `sublist_of` list_ascii_of_string filename
  ∧ sanitize_filename "" max_length = "".
Proof.
  intros r. split; [apply sanitize_filename_allowed|]. split.
  - destruct (sanitize_filename_shape filename max_length) as [n Hn].
    fold r in Hn. rewrite Hn.
    etrans; [|apply (chars_filter_sublist (λ c, char_in c valid_chars))].
    rewrite <- (splitext_app (str_filter _ filename)) at 3.
    rewrite !chars_app. apply sublist_app; [apply chars_take_sublist | done].
  - destruct (sanitize_filename_shape "" max_length) as [n ->].
    by destruct n.
Qed.

End SanitizeExtras.

(** ** More on [extract_hyperlinks_from_pdf] *)

Module ExtractExtras.
Import PyStr Model Spec ExtractClaims.
Import AttachmentDownloader.

Lemma elem_of_concat {A} (x : A) (ls : list (list A)) :
  x ∈ concat ls → ∃ l, l ∈ ls ∧ x ∈ l.
Proof.
  induction ls as [|l ls IH]; simpl; [by intros ?%elem_of_nil|].
  intros [H|H]%elem_of_app.
  - exists l. split; [by left | done].
  - destruct (IH H) as (l' & Hl' & Hx). exists l'. split; [by right | done].
Qed.

Lemma length_omap_le {A B} (f : A → option B) (l : list A) :
  length (omap f l) ≤ length l.
Proof.
  induction l as [|x l IH]; [done|].
  cbn [omap list_omap]. destruct (f x); simpl; lia.
Qed.

(** X4: the links returned for a PDF are never empty strings; each is the
    ["uri"] of an annotation of one of its pages, and there are no more
    links than annotations.  When the PDF does not open, the exception is
    passed on and no list is returned. *)
Theorem extracted_links_are_nonempty_uris (E : Env) (pdf_path : string)
    (links : list string) :
  extract_hyperlinks_from_pdf E pdf_path = inr links →
  ∃ doc,
    fitz_open E pdf_path = inr doc
    ∧ length links ≤ length (concat doc)
    ∧ ∀ u, u ∈ links →
        u ≠ "" ∧ ∃ page l, page ∈ doc ∧ l ∈ page ∧ uri l = Some u.
Proof.
  unfold extract_hyperlinks_from_pdf.
  destruct (fitz_open E pdf_path) as [e|doc]; [done|].
  intros [= <-]. exists doc. split; [done|].
  rewrite document_hyperlinks_spec. simpl. unfold uri_targets.
  split; [apply length_omap_le|].
  intros u (l & Hl & Hu)%list_elem_of_omap.
  unfold uri_target in Hu. destruct (uri l) as [v|] eqn:Hv; [|done].
  destruct (truthy v) eqn:Ht; [|done]. injection Hu as ->.
  split. { intros ->. done. }
  apply elem_of_concat in Hl as (page & Hp & Hl). eauto.
Qed.

Lemma extracted_links_are_nonempty_uris_witness :
  ∃ doc, fitz_open Scenario.env "Submittals/A.pdf" = inr doc
         ∧ 3 ≤ length (concat doc).
Proof.
  destruct (extracted_links_are_nonempty_uris Scenario.env "Submittals/A.pdf"
              [Scenario.mail; Scenario.good; Scenario.bad] eq_refl)
    as (doc & Hdoc & Hlen & _).
  exists doc. split; [exact Hdoc | exact Hlen].
Defined.

End ExtractExtras.

(** ** More on [download_files_from_links] *)

Module DownloadExtras.
Import PyStr OsPath Model Os Spec StrFacts OsFacts DownloadFacts.
Import AttachmentDownloader.

Section WithEnv.
Variable E : Env.

Lemma failed_links_sublist n links :
  (link <$> omap failure_of (outcomes E n links)) `sublist_of` links.
Proof.
  revert n. induction links as [|lnk links IH]; intros n; [done|].
  cbn [outcomes omap list_omap]. unfold failure_of at 1. simpl.
  destruct (link_outcome E n lnk); simpl; try (apply sublist_cons, IH).
  apply sublist_skip, IH.
Qed.

Lemma failed_links_attempted n links f :
  f ∈ omap failure_of (outcomes E n links) →
  skip_reason (link f) = None ∧ pdf_file f = None ∧ attachments_folder f = None.
Proof.
  revert n. induction links as [|lnk links IH]; intros n.
  { by intros ?%elem_of_nil. }
  cbn [outcomes omap list_omap]. unfold failure_of at 1. simpl.
  destruct (link_outcome E n lnk) as [| | |st err] eqn:Ho; simpl; try apply IH.
  intros [->|H]%elem_of_cons; [|by eapply IH].
  simpl. split; [|done].
  destruct (skip_reason lnk) as [o|] eqn:Hs; [|done].
  unfold link_outcome in Ho. rewrite Hs in Ho. subst o.
  by apply skip_reason_skipped in Hs.
Qed.

Lemma failures_le_attempts (outs : list (string * DownloadOutcome)) :
  length (omap failure_of outs) ≤ length (List.filter attempted outs).
Proof.
  induction outs as [|[lnk o] outs IH]; [done|].
  cbn [omap list_omap List.filter]. unfold failure_of at 1, attempted at 1.
  destruct o; simpl; lia.
Qed.


End WithEnv.

(** X5: the failures returned are about links of the input, in input
    order, each a link that was fetched and none yet tagged with a
    document; there are at most as many failures as GETs issued, and at
    most as many GETs as links. *)
Theorem failures_follow_the_links (E : Env) (links : list string)
    (download_folder : string) (w : World) :
  let r := download_files_from_links E links download_folder w in
  (link <$> r.2) `sublist_of` links
  ∧ (∀ f, f ∈ r.2 →
       skip_reason (link f) = None ∧ pdf_file f = None
       ∧ attachments_folder f = None)
  ∧ length r.2 + length (requests w) ≤ length (requests r.1)
  ∧ length (requests r.1) ≤ length (requests w) + length links.
Proof.
  intros r.
  destruct (download_files_from_links_spec E links download_folder w)
    as (Hf & Hreq & _).
  fold r in Hf, Hreq. rewrite Hf, Hreq.
  split; [apply failed_links_sublist|].
  split; [intros f; apply failed_links_attempted|].
  rewrite length_app, length_fmap.
  pose proof (failures_le_attempts (outcomes E (length (requests w)) links)).
  pose proof (List.filter_length_le attempted
                (outcomes E (length (requests w)) links)) as Hle.
  pose proof (outcomes_links E (length (requests w)) links) as Hl.
  apply (f_equal length) in Hl. rewrite length_fmap in Hl.
  lia.
Qed.

(** X6: after the call the download folder exists, also when no link was
    fetched or every download failed; a node that was at its path before
    is still the same. *)
Theorem download_folder_exists_afterwards (E : Env) (links : list string)
    (download_folder : string) (w : World) :
  let r := download_files_from_links E links download_folder w in
  path_exists (fs r.1) download_folder = true
  ∧ (∀ n, fs w !! download_folder = Some n → fs r.1 !! download_folder = Some n)
  ∧ (fs w !! download_folder = None → fs r.1 !! download_folder = Some Dir).
Proof.
  intros r. unfold r, download_files_from_links.
  destruct (download_loop_spec E download_folder links 0
              (ensure_folder download_folder w) []) as (_ & _ & Hfs).
  set (r' := download_loop _ _ _ _ _) in *.
  assert (He : ∃ n, fs (ensure_folder download_folder w) !! download_folder = Some n
                    ∧ (fs w !! download_folder = None → n = Dir)
                    ∧ ∀ n', fs w !! download_folder = Some n' → n = n').
  { unfold ensure_folder, makedirs.
    destruct (path_exists (fs w) download_folder) eqn:Hex.
    - apply path_exists_true in Hex as [n Hn]. exists n.
      split; [done|]. split; congruence.
    - apply path_exists_false in Hex. exists Dir. simpl.
      rewrite lookup_insert_eq. split; [done|]. split; congruence. }
  destruct He as (n & Hn & Hnew & Hold).
  pose proof (lookup_weaken _ _ _ _ Hn Hfs) as Hn'.
  split; [apply path_exists_true; eauto|]. split.
  - intros n' Hn''. by rewrite (Hold n' Hn'') in Hn'.
  - intros Hnone. by rewrite (Hnew Hnone) in Hn'.
Qed.



(** X8: a 200 answer is still a failure when the [Content-Disposition]
    header mentions [filename=] without a value the pattern can match: the
    [IndexError] is caught, the link is recorded with the message
    [list index out of range] and no status, and no file is written. *)
Theorem unmatched_filename_header_is_a_failure (E : Env) (download_folder : string)
    (i : nat) (lnk cd : string) (w : World) (failed : list FailureRecord)
    (resp : Response) :
  skip_reason lnk = None →
  http_get E (length (requests w)) lnk = GetResponse resp →
  status_code resp = 200%Z →
  content_disposition resp = Some cd →
  contains "filename=" cd = true →
  findall_filename cd = None →
  download_link E download_folder i lnk (w, failed) =
  (mkWorld (fs w) (requests w ++ [lnk]),
   (failed ++ [failure lnk None "list index out of range"])%list).
Proof.
  intros Hskip Hget Hst Hcd Hin Hfind.
  assert (Hm : startswith (lower lnk) "mailto:" = false
               ∧ negb (startswith (lower lnk) "http://"
                       || startswith (lower lnk) "https://") = false).
  { unfold skip_reason in Hskip. by repeat case_match. }
  destruct Hm as [Hm Hh].
  unfold download_link, get. rewrite Hm, Hh, Hget, Hst. simpl.
  unfold on_status_200, resolve_filename, disposition_filename.
  rewrite Hcd, Hin, Hfind.
  assert (Ht : truthy cd = true) by (by destruct cd).
  by rewrite Ht.
Qed.

Lemma unmatched_filename_header_is_a_failure_witness :
  let E := mkEnv Scenario.ascii_alnum (λ _, None) (λ _, "/get") (λ s, s)
             (λ _ _, GetResponse
                (mkResponse 200 (Some "attachment; filename=") None ["data"] None))
             (λ _, []) (λ _, inl "unused") (λ _ _ _, None) in
  download_link E "attachments" 0 "https://files.example/get" (Scenario.start, [])
  = (mkWorld (fs Scenario.start) ["https://files.example/get"],
     [failure "https://files.example/get" None "list index out of range"]).
Proof.
  intros E.
  exact (unmatched_filename_header_is_a_failure E "attachments" 0
           "https://files.example/get" "attachment; filename=" Scenario.start []
           (mkResponse 200 (Some "attachment; filename=") None ["data"] None)
           eq_refl eq_refl eq_refl eq_refl eq_refl eq_refl).
Defined.



End DownloadExtras.

(** ** The older copy *)

Module CopyExtras.
Import PyStr OsPath Model Os Spec StrFacts OsFacts DownloadFacts ProcessFacts.

Section WithEnv.
Variable E : Env.

Lemma copy_failures_vs_main links folder w :
  let a := AttachmentDownloader.download_files_from_links E links folder w in
  let b := AttachmentDownloaderCopy.download_files_from_links E links folder w in
  b.1 = a.1 ∧ b.2 = List.filter not_401 a.2.
Proof.
  intros a b.
  destruct (copy_loop_vs_main E folder links 0
              (AttachmentDownloader.ensure_folder folder w) [] [])
    as (Hw & added & Ha & Hb).
  unfold a, b, AttachmentDownloader.download_files_from_links,
    AttachmentDownloaderCopy.download_files_from_links.
  split; [done|]. simpl in Ha, Hb. by rewrite Hb, Ha.
Qed.

Lemma copy_failure_not_401 links folder w f :
  f ∈ (AttachmentDownloaderCopy.download_files_from_links E links folder w).2 →
  failure_status f ≠ Some 401%Z
  ∧ f ∈ (AttachmentDownloader.download_files_from_links E links folder w).2.
Proof.
  destruct (copy_failures_vs_main links folder w) as [_ ->].
  intros [Hin Hf]%list_elem_of_In%List.filter_In.
  split; [|by apply list_elem_of_In].
  unfold not_401 in Hf. apply negb_true_iff, bool_decide_eq_false in Hf. done.
Qed.

(** What one document adds to the run of the copy. *)
Lemma copy_process_pdf_step dest pdf st :
  let st' := AttachmentDownloaderCopy.process_pdf E dest pdf st in
  AttachmentDownloaderCopy.written st' = AttachmentDownloaderCopy.written st
  ∧ ∃ added,
      AttachmentDownloaderCopy.all_failed_downloads st' =
      (AttachmentDownloaderCopy.all_failed_downloads st ++ added)%list
      ∧ ∀ f, f ∈ added →
          pdf_file f = Some (basename pdf) ∧ attachments_folder f = Some dest
          ∧ failure_status f ≠ Some 401%Z.
Proof.
  unfold AttachmentDownloaderCopy.process_pdf.
  destruct (negb _); [|destruct (AttachmentDownloader.extract_hyperlinks_from_pdf _ _)
                         as [e|[|lnk links]]]; simpl;
    try (split; [done|]; exists []; rewrite app_nil_r; split; [done|];
         by intros f ?%elem_of_nil).
  destruct (AttachmentDownloaderCopy.download_files_from_links E (lnk :: links) dest
              (AttachmentDownloaderCopy.world st)) as [w failed] eqn:Hd.
  simpl. split; [done|]. eexists. split; [done|].
  intros f Hf. pose proof Hf as [Hp Ha]%elem_of_tag.
  split; [done|]. split; [done|].
  unfold AttachmentDownloader.tag in Hf.
  apply list_elem_of_fmap in Hf as (g & -> & Hg). simpl.
  eapply (copy_failure_not_401 (lnk :: links) dest). by rewrite Hd.
Qed.

Lemma copy_process_loop_step dest pdf_files :
  ∀ st,
    let st' := AttachmentDownloaderCopy.process_loop E dest pdf_files st in
    AttachmentDownloaderCopy.written st' = AttachmentDownloaderCopy.written st
    ∧ ∀ f, f ∈ AttachmentDownloaderCopy.all_failed_downloads st' →
        f ∈ AttachmentDownloaderCopy.all_failed_downloads st
        ∨ (∃ p, p ∈ pdf_files ∧ pdf_file f = Some (basename p))
          ∧ attachments_folder f = Some dest
          ∧ failure_status f ≠ Some 401%Z.
Proof.
  unfold AttachmentDownloaderCopy.process_loop.
  induction pdf_files as [|p pdf_files IH]; intros st; simpl; [auto|].
  destruct (copy_process_pdf_step dest p st) as (Hw & added & Ha & Hadd).
  destruct (IH (AttachmentDownloaderCopy.process_pdf E dest p st)) as (Hw' & Hf').
  split; [congruence|].
  intros f [Hin|((q & Hq & Hb) & Hrest)]%Hf'.
  - rewrite Ha in Hin. apply elem_of_app in Hin as [Hin|Hin]; [by left|].
    right. destruct (Hadd f Hin) as (? & ? & ?).
    split; [|done]. exists p. split; [by left | done].
  - right. split; [|done]. exists q. split; [by right | done].
Qed.

End WithEnv.

(** X10: the older copy never reports a 401: no record it returns has
    status 401, and each record it returns is one the current script
    returns for the same links. *)
Theorem copy_never_reports_401 (E : Env) (links : list string)
    (download_folder : string) (w : World) (f : FailureRecord) :
  f ∈ (AttachmentDownloaderCopy.download_files_from_links E links
         download_folder w).2 →
  failure_status f ≠ Some 401%Z
  ∧ f ∈ (AttachmentDownloader.download_files_from_links E links
           download_folder w).2.
Proof. apply copy_failure_not_401. Qed.

Lemma copy_never_reports_401_witness :
  AttachmentDownloader.failure Scenario.bad (Some 404%Z) "Status 404"
  ∈ (AttachmentDownloader.download_files_from_links Scenario.env
       [Scenario.locked; Scenario.bad] "attachments" Scenario.start).2.
Proof.
  refine (proj2 (copy_never_reports_401 Scenario.env
    [Scenario.locked; Scenario.bad] "attachments" Scenario.start _ _)).
  vm_compute. by left.
Defined.

(** X11: the run of the older copy writes no summary; it writes
    [failed_downloads.csv] into the destination folder exactly when it
    has failures, with the document, folder and link of each; every
    failure names a discovered PDF, carries the common destination folder
    and is no 401. *)
Theorem copy_run_reports (E : Env) (src dest : string) (w : World) :
  let final := AttachmentDownloaderCopy.process_pdf_folder E src dest w in
  AttachmentDownloaderCopy.written final =
    match AttachmentDownloaderCopy.all_failed_downloads final with
    | [] => []
    | _ :: _ =>
        [(join dest "failed_downloads.csv",
          AttachmentDownloaderCopy.to_row
            <$> AttachmentDownloaderCopy.all_failed_downloads final)]
    end
  ∧ ∀ f, f ∈ AttachmentDownloaderCopy.all_failed_downloads final →
      (∃ p, p ∈ glob E (join src "*.pdf") ∧ pdf_file f = Some (basename p))
      ∧ attachments_folder f = Some dest
      ∧ failure_status f ≠ Some 401%Z.
Proof.
  intros final. unfold final, AttachmentDownloaderCopy.process_pdf_folder.
  destruct (glob E (join src "*.pdf")) as [|p pdfs] eqn:Hg.
  { simpl. split; [done|]. by intros f ?%elem_of_nil. }
  lazy beta iota zeta.
  set (st0 := AttachmentDownloaderCopy.mkRun _ [] []).
  destruct (copy_process_loop_step E dest (p :: pdfs) st0) as (Hw & Hf).
  set (st := AttachmentDownloaderCopy.process_loop E dest (p :: pdfs) st0) in *.
  assert (Hall : ∀ f, f ∈ AttachmentDownloaderCopy.all_failed_downloads st →
            (∃ q, q ∈ p :: pdfs ∧ pdf_file f = Some (basename q))
            ∧ attachments_folder f = Some dest
            ∧ failure_status f ≠ Some 401%Z).
  { intros f [Hin|H]%Hf; [by apply elem_of_nil in Hin | done]. }
  destruct (AttachmentDownloaderCopy.all_failed_downloads st) as [|f0 fs0] eqn:Hfs.
  - rewrite Hfs. rewrite Hw. done.
  - simpl. rewrite Hw. done.
Qed.

End CopyExtras.

(** ** More on [process_pdf_folder] *)

Module ProcessExtras.
Import PyStr OsPath Sanitize Model Os Spec StrFacts OsFacts DownloadFacts ProcessFacts.
Import AttachmentDownloader.

Section WithEnv.
Variable E : Env.

(** The row and the records one document adds. *)
Lemma process_pdf_adds dest i pdf st :
  let st' := process_pdf E dest i pdf st in
  ∃ rows added,
    file_summary st' = (file_summary st ++ rows)%list
    ∧ all_failed_downloads st' = (all_failed_downloads st ++ added)%list
    ∧ (rows = []
       ∨ ∃ c, rows = [mkSummary (Z.of_nat i + 1) (basename pdf) c]
              ∧ (0 ≤ c)%Z
              ∧ match extract_hyperlinks_from_pdf E pdf with
                | inr links => (c ≤ Z.of_nat (length links))%Z
                | inl _ => c = 0%Z
                end)
    ∧ ∀ f, f ∈ added →
        ∃ links, extract_hyperlinks_from_pdf E pdf = inr links
                 ∧ link f ∈ links ∧ skip_reason (link f) = None
                 ∧ pdf_file f = Some (basename pdf)
                 ∧ is_Some (attachments_folder f).
Proof.
  destruct (path_exists (fs (world st)) pdf) eqn:Hex.
  - destruct (extract_hyperlinks_from_pdf E pdf) as [e|links] eqn:Hext;
      [|destruct (decide (links = [])) as [->|Hne]].
    + simpl. rewrite process_pdf_zero by eauto.
      exists [mkSummary (Z.of_nat i + 1) (basename pdf) 0], []. simpl.
      rewrite app_nil_r. split; [done|]. split; [done|].
      split; [right; exists 0%Z; by repeat split|]. by intros f ?%elem_of_nil.
    + simpl. rewrite process_pdf_zero by eauto.
      exists [mkSummary (Z.of_nat i + 1) (basename pdf) 0], []. simpl.
      rewrite app_nil_r. split; [done|]. split; [done|].
      split; [right; exists 0%Z; by repeat split|].
      by intros f ?%elem_of_nil.
    + simpl. rewrite (process_pdf_links E dest i pdf st links) by done.
      simpl.
      set (sub := join dest (positional_name i)).
      destruct (download_files_from_links_spec E links sub (world st))
        as (Hf & _).
      set (d := download_files_from_links E links sub (world st)) in *.
      pose proof (DownloadExtras.failed_links_sublist E
                    (length (requests (world st))) links) as Hsub.
      rewrite <- Hf in Hsub.
      pose proof (sublist_length _ _ Hsub) as Hlen.
      rewrite length_fmap in Hlen.
      eexists _, _. split; [done|]. split; [done|]. split.
      * right. eexists. split; [done|]. lia.
      * intros f Hin. exists links. split; [done|].
        pose proof (organize_tagged E _ _ _ _ _ _ _ Hin) as Hpdf.
        rewrite organize_spec in Hin.
        assert (Hg : ∃ folder g, g ∈ d.2 ∧ f = mkFailure (link g)
                        (failure_status g) (error g)
                        (Some (basename pdf)) (Some folder)).
        { repeat case_match; simpl in Hin; unfold tag in Hin;
            apply list_elem_of_fmap in Hin as (g & -> & Hg); eauto. }
        destruct Hg as (folder & g & Hg & ->). simpl.
        split.
        { eapply elem_of_sublist; [|exact Hsub].
          apply list_elem_of_fmap. eauto. }
        split; [|split; [done | by eexists]].
        rewrite Hf in Hg.
        by apply DownloadExtras.failed_links_attempted in Hg as [? _].
  - simpl. rewrite process_pdf_missing by done.
    exists [], []. rewrite !app_nil_r. split; [done|]. split; [done|].
    split; [by left|]. by intros f ?%elem_of_nil.
Qed.

Lemma process_loop_adds dest pdf_files :
  ∀ i st,
    let st' := process_loop E dest i pdf_files st in
    ∃ rows added,
      file_summary st' = (file_summary st ++ rows)%list
      ∧ all_failed_downloads st' = (all_failed_downloads st ++ added)%list
      ∧ ((λ r, (file_number r, file_name r)) <$> rows)
          `sublist_of`
          imap (λ k p, ((Z.of_nat (i + k) + 1)%Z, basename p)) pdf_files
      ∧ (∀ r, r ∈ rows →
           (0 ≤ attachments_count r)%Z
           ∧ ∃ p, p ∈ pdf_files ∧ file_name r = basename p
                  ∧ match extract_hyperlinks_from_pdf E p with
                    | inr links =>
                        (attachments_count r ≤ Z.of_nat (length links))%Z
                    | inl _ => attachments_count r = 0%Z
                    end)
      ∧ ∀ f, f ∈ added →
          ∃ p links, p ∈ pdf_files
                     ∧ extract_hyperlinks_from_pdf E p = inr links
                     ∧ link f ∈ links ∧ skip_reason (link f) = None
                     ∧ pdf_file f = Some (basename p)
                     ∧ is_Some (attachments_folder f).
Proof.
  induction pdf_files as [|p pdf_files IH]; intros i st.
  - simpl. exists [], []. rewrite !app_nil_r.
    split; [done|]. split; [done|]. split; [done|].
    split; by intros ? ?%elem_of_nil.
  - cbn [process_loop].
    destruct (process_pdf_adds dest i p st) as (rows1 & added1 & Hs1 & Ha1 & Hr1 & Hf1).
    destruct (IH (S i) (process_pdf E dest i p st))
      as (rows2 & added2 & Hs2 & Ha2 & Hsub2 & Hr2 & Hf2).
    exists (rows1 ++ rows2)%list, (added1 ++ added2)%list.
    split; [by rewrite Hs2, Hs1, app_assoc|].
    split; [by rewrite Ha2, Ha1, app_assoc|].
    split; [|split].
    + rewrite imap_cons, fmap_app.
      assert (Hext : imap ((λ k q, ((Z.of_nat (i + k) + 1)%Z, basename q)) ∘ S)
                       pdf_files
                     = imap (λ k q, ((Z.of_nat (S i + k) + 1)%Z, basename q))
                         pdf_files).
      { apply imap_ext. intros k q _. simpl. do 3 f_equal. lia. }
      rewrite Hext.
      destruct Hr1 as [->|(c & -> & _)]; simpl.
      * by apply sublist_cons.
      * rewrite Nat.add_0_r. by apply sublist_skip.
    + intros r [Hr|Hr]%elem_of_app.
      * destruct Hr1 as [->|(c & -> & Hc & Hb)]; [by apply elem_of_nil in Hr|].
        apply list_elem_of_singleton in Hr as ->. simpl. split; [done|].
        exists p. split; [by left|]. split; [done|].
        by destruct (extract_hyperlinks_from_pdf E p).
      * destruct (Hr2 r Hr) as (Hc & q & Hq & Hrest).
        split; [done|]. exists q. split; [by right | done].
    + intros f [Hf|Hf]%elem_of_app.
      * destruct (Hf1 f Hf) as (links & Hrest). exists p, links.
        split; [by left | done].
      * destruct (Hf2 f Hf) as (q & links & Hq & Hrest). exists q, links.
        split; [by right | done].
Qed.

Lemma process_pdf_folder_adds src dest w :
  let final := process_pdf_folder E src dest w in
  let pdf_files := glob E (join src "*.pdf") in
  ((λ r, (file_number r, file_name r)) <$> file_summary final)
    `sublist_of` imap (λ k p, ((Z.of_nat k + 1)%Z, basename p)) pdf_files
  ∧ (∀ r, r ∈ file_summary final →
       (0 ≤ attachments_count r)%Z
       ∧ ∃ p, p ∈ pdf_files ∧ file_name r = basename p
              ∧ match extract_hyperlinks_from_pdf E p with
                | inr links => (attachments_count r ≤ Z.of_nat (length links))%Z
                | inl _ => attachments_count r = 0%Z
                end)
  ∧ ∀ f, f ∈ all_failed_downloads final →
      ∃ p links, p ∈ pdf_files
                 ∧ extract_hyperlinks_from_pdf E p = inr links
                 ∧ link f ∈ links ∧ skip_reason (link f) = None
                 ∧ pdf_file f = Some (basename p)
                 ∧ is_Some (attachments_folder f).
Proof.
  intros final pdf_files. unfold final, process_pdf_folder. fold pdf_files.
  destruct pdf_files as [|p pdfs] eqn:Hg.
  { simpl. split; [done|]. split; by intros ? ?%elem_of_nil. }
  destruct (write_reports_spec dest
              (process_loop E dest 0 (p :: pdfs)
                 (mkRun (ensure_destination dest w) [] [] [])))
    as (_ & -> & -> & _).
  destruct (process_loop_adds dest (p :: pdfs) 0
              (mkRun (ensure_destination dest w) [] [] []))
    as (rows & added & -> & -> & Hsub & Hr & Hf).
  simpl. done.
Qed.

End WithEnv.

(** X12: the summary follows the discovered PDFs: its rows, read as
    (number, name), form a subsequence of the PDFs numbered from 1 in
    discovery order with their base names; so there is at most one row per
    PDF, rows are in discovery order, and a row's number is the position
    of its PDF. *)
Theorem summary_rows_follow_discovery (E : Env) (src dest : string) (w : World) :
  let final := process_pdf_folder E src dest w in
  let pdf_files := glob E (join src "*.pdf") in
  ((λ r, (file_number r, file_name r)) <$> file_summary final)
    `sublist_of` imap (λ k p, ((Z.of_nat k + 1)%Z, basename p)) pdf_files
  ∧ length (file_summary final) ≤ length pdf_files.
Proof.
  intros final pdf_files.
  destruct (process_pdf_folder_adds E src dest w) as (Hsub & _).
  split; [done|].
  apply sublist_length in Hsub. by rewrite length_fmap, length_imap in Hsub.
Qed.

(** X13: no summary row holds a negative count or more than the number of
    links of its document: the count of a row lies between 0 and the
    number of links extracted from a discovered PDF of that name, and is
    0 when that PDF does not open. *)
Theorem summary_counts_are_bounded (E : Env) (src dest : string) (w : World)
    (r : SummaryRow) :
  r ∈ file_summary (process_pdf_folder E src dest w) →
  (0 ≤ attachments_count r)%Z
  ∧ ∃ p, p ∈ glob E (join src "*.pdf") ∧ file_name r = basename p
         ∧ match extract_hyperlinks_from_pdf E p with
           | inr links => (attachments_count r ≤ Z.of_nat (length links))%Z
           | inl _ => attachments_count r = 0%Z
           end.
Proof.
  destruct (process_pdf_folder_adds E src dest w) as (_ & Hr & _). apply Hr.
Qed.

Lemma summary_counts_are_bounded_witness :
  (0 ≤ attachments_count (mkSummary 1 "A.pdf" 2))%Z.
Proof.
  refine (proj1 (summary_counts_are_bounded Scenario.env "Submittals"
    "attachments" Scenario.start (mkSummary 1 "A.pdf" 2) _)).
  vm_compute. by left.
Defined.

(** X14: every failure record of a run is complete and traceable: it names
    a discovered PDF that opened, its link is one of the links extracted
    from that PDF and was fetched, not skipped, and its folder is filled
    in. *)
Theorem failure_records_are_traceable (E : Env) (src dest : string) (w : World)
    (f : FailureRecord) :
  f ∈ all_failed_downloads (process_pdf_folder E src dest w) →
  ∃ p links, p ∈ glob E (join src "*.pdf")
             ∧ extract_hyperlinks_from_pdf E p = inr links
             ∧ link f ∈ links ∧ skip_reason (link f) = None
             ∧ pdf_file f = Some (basename p)
             ∧ is_Some (attachments_folder f).
Proof.
  destruct (process_pdf_folder_adds E src dest w) as (_ & _ & Hf). apply Hf.
Qed.

Lemma failure_records_are_traceable_witness :
  ∃ p links, p ∈ glob Scenario.env (join "Submittals" "*.pdf")
             ∧ extract_hyperlinks_from_pdf Scenario.env p = inr links
             ∧ Scenario.bad ∈ links.
Proof.
  destruct (failure_records_are_traceable Scenario.env "Submittals" "attachments"
              Scenario.start
              (mkFailure Scenario.bad (Some 404%Z) "Status 404" (Some "A.pdf")
                 (Some "attachments/A")))
    as (p & links & Hp & Hext & Hl & _).
  - vm_compute. by left.
  - exists p, links. split; [exact Hp|]. split; [exact Hext | exact Hl].
Defined.

(** X15: a document whose name has no allowed character still gets its own
    folder: the sanitized name is empty, the positional name stands in,
    and as the working subfolder already has that name, the rename target
    is that name with the first free suffix [_k], [k ≥ 1]. *)
Theorem unnamed_document_gets_suffixed_folder (m : FS) (dest pdf_basename : string)
    (i : nat) :
  sanitize_filename (splitext pdf_basename).1 80 = "" →
  is_Some (m !! join dest (positional_name i)) →
  ∃ k, 1 ≤ k
       ∧ rename_target m dest pdf_basename i
         = join dest (positional_name i) ++ "_" ++ pretty k
       ∧ m !! rename_target m dest pdf_basename i = None
       ∧ ∀ j, 1 ≤ j < k →
           is_Some (m !! (join dest (positional_name i) ++ "_" ++ pretty j)).
Proof.
  intros Hempty Hsub. unfold rename_target. rewrite Hempty. simpl.
  destruct (free_path_spec m (join dest (positional_name i)) ""
              (join dest (positional_name i))) as [Hfree [[Hn _]|[_ Hk]]].
  { rewrite Hn in Hsub. by destruct Hsub. }
  destruct Hk as (k & Hk & Heq & Hbelow).
  unfold candidate in *. exists k. split; [done|].
  rewrite Heq in *. rewrite !app_empty_r in *. split; [done|]. split; [done|].
  intros j Hj. specialize (Hbelow j Hj). by rewrite !app_empty_r in Hbelow.
Qed.

Lemma unnamed_document_gets_suffixed_folder_witness :
  ∃ k, 1 ≤ k
       ∧ rename_target (<["attachments/pdf_1" := Dir]> ∅) "attachments" "#!.pdf" 0
         = join "attachments" (positional_name 0) ++ "_" ++ pretty k.
Proof.
  destruct (unnamed_document_gets_suffixed_folder
              (<["attachments/pdf_1" := Dir]> ∅) "attachments" "#!.pdf" 0)
    as (k & Hk & Heq & _).
  - by vm_compute.
  - apply path_exists_true. by vm_compute.
  - exists k. split; [exact Hk | exact Heq].
Defined.

End ProcessExtras.

(** ** Where downloads are written *)

Module PathExtras.
Import PyStr OsPath Model Os Spec StrFacts OsFacts DownloadFacts.
Import AttachmentDownloader.

Lemma str_app_assoc (s t u : string) : (s ++ t) ++ u = s ++ (t ++ u).
Proof. induction s as [|c s IH]; [done|]. by rewrite !app_cons, IH. Qed.

Lemma rfind_bounds c s : (-1 ≤ rfind c s < Z.of_nat (String.length s))%Z.
Proof.
  induction s as [|a s IH]; simpl; [lia|].
  destruct (0 <=? rfind c s)%Z eqn:H; [apply Z.leb_le in H; lia|].
  destruct (Ascii.eqb a c); lia.
Qed.

Lemma rfind_absent c s : char_in c s = false → rfind c s = (-1)%Z.
Proof.
  induction s as [|a s IH]; simpl; [done|].
  rewrite Ascii.eqb_sym. destruct (Ascii.eqb a c); [done|].
  intros H. by rewrite (IH H).
Qed.

Lemma rfind_app c s t :
  rfind c (s ++ t) =
  if (0 <=? rfind c t)%Z then (Z.of_nat (String.length s) + rfind c t)%Z
  else rfind c s.
Proof.
  induction s as [|a s IH].
  - rewrite app_empty_l. simpl. destruct (0 <=? rfind c t)%Z eqn:H; [done|].
    apply Z.leb_gt in H. pose proof (rfind_bounds c t). lia.
  - rewrite app_cons. cbn [rfind String.length]. rewrite IH.
    destruct (0 <=? rfind c t)%Z eqn:Ht.
    + apply Z.leb_le in Ht.
      rewrite (proj2 (Z.leb_le 0 _)) by lia. lia.
    + done.
Qed.

Lemma char_in_app c s t : char_in c (s ++ t) = char_in c s || char_in c t.
Proof.
  induction s as [|a s IH]; [done|].
  rewrite app_cons. simpl. by destruct (Ascii.eqb c a).
Qed.

Lemma char_in_filter c f s : f c = false → char_in c (str_filter f s) = false.
Proof.
  intros Hc. induction s as [|a s IH]; simpl; [done|].
  destruct (f a) eqn:Ha; [|done]. simpl.
  destruct (Ascii.eqb_spec c a) as [->|_]; [congruence | done].
Qed.

Lemma startswith_absent c s : char_in c s = false → startswith s (String c "") = false.
Proof.
  destruct s as [|a s]; simpl; [done|].
  destruct (Ascii.eqb_spec c a) as [->|Hne]; [done|]. intros _.
  unfold startswith. simpl. by destruct (ascii_dec c a).
Qed.

Lemma take_app_length s t j :
  take (String.length s + j) (s ++ t) = s ++ take j t.
Proof. induction s as [|a s IH]; [done|]. rewrite app_cons. simpl. by rewrite IH. Qed.

Lemma drop_app_length s t j : drop (String.length s + j) (s ++ t) = drop j t.
Proof. induction s as [|a s IH]; [done|]. by rewrite app_cons. Qed.

(** Digits only in a printed number. *)
Lemma pretty_N_go_no_slash x s :
  char_in "/" s = false → char_in "/" (pretty_N_go x s) = false.
Proof.
  revert s. induction (N.lt_wf_0 x) as [x _ IH]; intros s Hs.
  destruct (decide (x = 0%N)) as [->|Hx]; [by rewrite pretty_N_go_0|].
  rewrite pretty_N_go_step by lia. apply IH.
  - apply N.div_lt; lia.
  - cbn [char_in]. rewrite Hs. generalize (x `mod` 10)%N. intros n.
    destruct (Ascii.eqb_spec "/" (pretty_N_char n)) as [Heq|]; [|done].
    exfalso. revert Heq. unfold pretty_N_char. by repeat case_match.
Qed.

Lemma pretty_nat_no_slash (k : nat) : char_in "/" (pretty k) = false.
Proof.
  unfold pretty, pretty_nat, pretty, pretty_N.
  destruct (decide _); [done|]. by apply pretty_N_go_no_slash.
Qed.

(** Reversal, to read [endswith]. *)
Lemma chars_rev_app (s acc : string) :
  list_ascii_of_string (String.rev_app s acc)
  = (reverse (list_ascii_of_string s) ++ list_ascii_of_string acc)%list.
Proof.
  revert acc. induction s as [|a s IH]; intros acc; simpl; [done|].
  rewrite IH, reverse_cons, <- app_assoc. done.
Qed.

Lemma string_of_chars_app (l k : list ascii) :
  string_of_list_ascii (l ++ k) = string_of_list_ascii l ++ string_of_list_ascii k.
Proof. induction l as [|a l IH]; [done|]. simpl. by rewrite IH. Qed.

Lemma endswith_slash (a : string) :
  endswith a "/" = true → ∃ a', a = a' ++ "/".
Proof.
  unfold endswith. change (String.rev "/") with "/".
  destruct (String.rev a) as [|c r] eqn:Hrev; [done|]. cbn [String.prefix].
  destruct (ascii_dec "/" c) as [<-|]; [|done]. intros _.
  apply (f_equal list_ascii_of_string) in Hrev.
  unfold String.rev in Hrev. rewrite chars_rev_app, app_nil_r in Hrev.
  simpl in Hrev. apply (f_equal reverse) in Hrev.
  rewrite reverse_involutive, reverse_cons in Hrev.
  apply (f_equal string_of_list_ascii) in Hrev.
  rewrite string_of_list_ascii_of_string, string_of_chars_app in Hrev.
  eauto.
Qed.

Lemma join_component a leaf :
  char_in "/" leaf = false → join a leaf = join_prefix a ++ leaf.
Proof.
  intros Hleaf. unfold join, join_prefix.
  rewrite (startswith_absent _ _ Hleaf).
  destruct (negb (truthy a) || endswith a "/"); [done|].
  by rewrite str_app_assoc.
Qed.

Lemma join_prefix_sep a :
  (rfind "/" (join_prefix a) + 1 = Z.of_nat (String.length (join_prefix a)))%Z.
Proof.
  unfold join_prefix.
  destruct (negb (truthy a) || endswith a "/") eqn:H.
  - apply orb_prop in H as [H|H].
    + destruct a; [done | discriminate H].
    + apply endswith_slash in H as [a' ->].
      rewrite rfind_app, str_length_app. simpl. lia.
  - rewrite rfind_app, str_length_app. simpl. lia.
Qed.

(** [splitext] of a directory part followed by one component splits inside
    the component. *)
Lemma splitext_component d name :
  (rfind "/" d + 1 = Z.of_nat (String.length d))%Z →
  char_in "/" name = false →
  ∃ stem ext, splitext (d ++ name) = (d ++ stem, ext) ∧ stem ++ ext = name.
Proof.
  intros Hd Hname. unfold splitext.
  assert (Hsep : rfind "/" (d ++ name) = rfind "/" d).
  { by rewrite rfind_app, (rfind_absent _ _ Hname). }
  rewrite Hsep, (rfind_app "." d name).
  destruct (0 <=? rfind "." name)%Z eqn:Hdot.
  - apply Z.leb_le in Hdot.
    rewrite (proj2 (Z.ltb_lt _ _)) by lia.
    destruct (str_all _ _).
    + exists name, "". by rewrite app_empty_r.
    + exists (take (Z.to_nat (rfind "." name)) name),
             (drop (Z.to_nat (rfind "." name)) name).
      rewrite str_take_drop. split; [|done].
      replace (Z.to_nat (Z.of_nat (String.length d) + rfind "." name))
        with (String.length d + Z.to_nat (rfind "." name)) by lia.
      by rewrite take_app_length, drop_app_length.
  - pose proof (rfind_bounds "." d).
    rewrite (proj2 (Z.ltb_ge _ _)) by lia.
    exists name, "". by rewrite app_empty_r.
Qed.

(** X16: a download is written straight into the download folder: when
    [/] is not alphanumeric, the path chosen for a file is the folder
    joined with a single component, free of separators whatever name the
    server or the URL proposed, and that path was free. *)
Theorem downloads_stay_in_folder (E : Env) (m : FS)
    (download_folder filename : string) :
  isalnum E "/" = false →
  ∃ leaf,
    target_path E m download_folder filename = join download_folder leaf
    ∧ char_in "/" leaf = false
    ∧ m !! join download_folder leaf = None.
Proof.
  intros Halnum.
  assert (Hname : char_in "/" (keep_safe E filename) = false).
  { unfold keep_safe. apply char_in_filter. by rewrite Halnum. }
  pose proof (target_path_free E m download_folder filename) as Hfree.
  unfold target_path in *.
  rewrite (join_component _ _ Hname) in *.
  destruct (splitext_component (join_prefix download_folder) (keep_safe E filename)
              (join_prefix_sep download_folder) Hname)
    as (stem & ext & Hsplit & Hse).
  rewrite Hsplit in *.
  assert (Hparts : char_in "/" stem = false ∧ char_in "/" ext = false).
  { rewrite <- Hse, char_in_app in Hname. by apply orb_false_elim in Hname. }
  destruct Hparts as [Hstem Hext].
  destruct (free_path_spec m (join_prefix download_folder ++ stem) ext
              (join_prefix download_folder ++ keep_safe E filename))
    as [_ [[_ Heq]|[_ (k & _ & Heq & _)]]].
  - exists (keep_safe E filename). rewrite Heq in *.
    by rewrite (join_component _ _ Hname).
  - assert (Hleaf : char_in "/" (stem ++ "_" ++ pretty k ++ ext) = false).
    { by rewrite !char_in_app, Hstem, Hext, pretty_nat_no_slash. }
    exists (stem ++ "_" ++ pretty k ++ ext). rewrite Heq in *.
    unfold candidate in *.
    rewrite (join_component _ _ Hleaf).
    rewrite str_app_assoc in *. done.
Qed.

Lemma downloads_stay_in_folder_witness :
  ∃ leaf,
    target_path Scenario.env (<["attachments/etcpasswd" := File "x"]> ∅)
      "attachments" "../../etc/passwd"
    = join "attachments" leaf
    ∧ char_in "/" leaf = false.
Proof.
  destruct (downloads_stay_in_folder Scenario.env
              (<["attachments/etcpasswd" := File "x"]> ∅)
              "attachments" "../../etc/passwd" eq_refl)
    as (leaf & Heq & Hleaf & _).
  exists leaf. split; [exact Heq | exact Hleaf].
Defined.

End PathExtras.

(** ** The console mirror *)

Module LoggingExtras.
Import Logging PathExtras.

Lemma write_lookup data (streams : list Stream) k s :
  streams !! k = Some s →
  write data streams !! k = Some (default s (stream_write data s)).
Proof. intros H. unfold write. by rewrite list_lookup_fmap, H. Qed.

(** X17: [_Tee.write] keeps the streams apart: over any sequence of
    writes, a stream that takes every piece has received all of them, in
    order, after what it held, and a stream whose [write] always raises
    is left as it was, whatever the other streams do; no stream is added
    or dropped. *)
Theorem tee_write_keeps_streams_apart (datas : list string)
    (streams : list Stream) (k : nat) (s : Stream) :
  streams !! k = Some s →
  let after := fold_left (λ ss d, write d ss) datas streams in
  length after = length streams
  ∧ ((∀ d, d ∈ datas → accepts s d = true) →
     ∃ s', after !! k = Some s'
           ∧ received s' = received s ++ fold_right String.append "" datas)
  ∧ ((∀ d, d ∈ datas → accepts s d = false) → after !! k = Some s).
Proof.
  revert streams s. induction datas as [|d datas IH]; intros streams s Hk; simpl.
  - split; [done|]. split; [|done].
    intros _. exists s. by rewrite StrFacts.app_empty_r.
  - pose proof (write_lookup d streams k s Hk) as Hk'.
    destruct (IH _ _ Hk') as (Hlen & Hacc & Hrej).
    split; [rewrite Hlen; unfold write; by rewrite length_fmap|]. split.
    + intros Hall.
      assert (Hd : accepts s d = true) by (apply Hall; by left).
      unfold stream_write in *. rewrite Hd in *. simpl in *.
      destruct Hacc as (s' & Hs' & Hr).
      { intros d' Hd'. apply Hall. by right. }
      exists s'. split; [done|]. by rewrite Hr, str_app_assoc.
    + intros Hall.
      assert (Hd : accepts s d = false) by (apply Hall; by left).
      unfold stream_write in *. rewrite Hd in *. simpl in *.
      apply Hrej. intros d' Hd'. apply Hall. by right.
Qed.

Lemma tee_write_keeps_streams_apart_witness :
  let console := mkStream "" (λ _, true) (Some (inr true)) in
  let broken_log := mkStream "" (λ _, false) None in
  length (fold_left (λ ss d, write d ss) ["Found 3 links"; "Downloaded"]
            [console; broken_log]) = 2.
Proof.
  intros console broken_log.
  exact (proj1 (tee_write_keeps_streams_apart ["Found 3 links"; "Downloaded"]
                  [console; broken_log] 0 console eq_refl)).
Defined.

(** X18: [_Tee.isatty] answers [True] exactly when some stream answers
    [True] and no stream before it raises; a stream without [isatty], or
    one that answers [False], is passed over. *)
Theorem tee_isatty_first_true_before_any_raise (streams : list Stream) :
  isatty streams = true
  ↔ ∃ k s, streams !! k = Some s ∧ isatty_attr s = Some (inr true)
           ∧ ∀ j s' e, j < k → streams !! j = Some s' →
               isatty_attr s' ≠ Some (inl e).
Proof.
  unfold isatty. induction streams as [|s streams IH]; simpl.
  - split; [done|]. by intros (k & s & ? & _).
  - destruct (isatty_attr s) as [[e|[]]|] eqn:Hs; simpl.
    + split; [done|]. intros (k & s' & Hk & Ht & Hbefore).
      destruct k as [|k]; simpl in Hk; [congruence|].
      exfalso. by apply (Hbefore 0 s e); [lia | |].
    + split; [|done]. intros _. exists 0, s. split; [done|]. split; [done|].
      intros j ? ? ?. lia.
    + rewrite IH. split.
      * intros (k & s' & Hk & Ht & Hbefore). exists (S k), s'.
        split; [done|]. split; [done|]. intros [|j] s'' e Hj Hl; simpl in Hl.
        -- congruence.
        -- apply (Hbefore j); [lia | done].
      * intros (k & s' & Hk & Ht & Hbefore).
        destruct k as [|k]; simpl in Hk; [congruence|].
        exists k, s'. split; [done|]. split; [done|].
        intros j s'' e Hj Hl. apply (Hbefore (S j)); [lia | done].
    + rewrite IH. split.
      * intros (k & s' & Hk & Ht & Hbefore). exists (S k), s'.
        split; [done|]. split; [done|]. intros [|j] s'' e Hj Hl; simpl in Hl.
        -- congruence.
        -- apply (Hbefore j); [lia | done].
      * intros (k & s' & Hk & Ht & Hbefore).
        destruct k as [|k]; simpl in Hk; [congruence|].
        exists k, s'. split; [done|]. split; [done|].
        intros j s'' e Hj Hl. apply (Hbefore (S j)); [lia | done].
Qed.

End LoggingExtras.

(** ** Files and successes *)

Module GrowthExtras.
Import PyStr OsPath Model Os Spec StrFacts OsFacts DownloadFacts.
Import AttachmentDownloader.

Section WithEnv.
Variable E : Env.



End WithEnv.


End GrowthExtras.
